(** * openrover: the Rover session layer and the pitstop command line

    A shallow embedding of [openrover/rover.py] and [openrover/pitstop.py].
    Python numbers are exact rationals ([Q]); the rounding that the number
    type applies to a product is the parameter [fl] (the identity for [int]
    and [Fraction], round-to-nearest for [float]).  Effects are written in a
    small state-and-exception monad over the object a coroutine works on,
    with the time left in the enclosing [trio.fail_after] scope. *)

From Stdlib Require Import ZArith QArith Qround Lia Lqa Ascii String.
From stdpp Require Import base option list sorting gmap sets strings.

Local Open Scope Z_scope.

(** ** Python numbers *)

(** The chained comparison [lo <= x <= hi]. *)
Definition between (lo hi x : Q) : bool := Qle_bool lo x && Qle_bool x hi.

(** [int(x)]: truncation towards zero. *)
Definition py_int (x : Q) : Z :=
  if Qle_bool 0 x then Qfloor x else Qceiling x.

(** ** Exceptions and outcomes *)

Inductive exn : Type :=
  | AssertionError
  | AttributeError
  | ValueError
  | TypeError
  | OpenRoverException
  | TooSlowError
  | DecodeError
  | ChannelClosed
  | TransportError
  | InvalidMotorValue
  | OSError
  | CalledProcessError.

(** What running a coroutine gives: a value, an exception of a subclass of
    [Exception], the [SystemExit] of a call of [exit], or a wait that
    nothing ever ends. *)
Inductive outcome (A : Type) : Type :=
  | Return (a : A)
  | Raise (e : exn)
  | Exit (code : Z)
  | Blocked.
Arguments Return {A} a.
Arguments Raise {A} e.
Arguments Exit {A} code.
Arguments Blocked {A}.

(** A running coroutine: the object it works on and the time left before
    the enclosing [fail_after] scope expires ([None] outside any scope). *)
Record task (S : Type) : Type := Task { self : S; budget : option Q }.
Arguments Task {S} self budget.
Arguments self {S} t.
Arguments budget {S} t.

Definition M (S A : Type) : Type := task S -> outcome A * task S.

Definition ret {S A} (a : A) : M S A := fun t => (Return a, t).
Definition raise {S A} (e : exn) : M S A := fun t => (Raise e, t).
Definition bind {S A B} (m : M S A) (k : A -> M S B) : M S B :=
  fun t =>
    match m t with
    | (Return a, t') => k a t'
    | (Raise e, t') => (Raise e, t')
    | (Exit c, t') => (Exit c, t')
    | (Blocked, t') => (Blocked, t')
    end.

Notation "'let*' x ':=' c 'in' k" := (bind c (fun x => k))
  (at level 10, x pattern, c at level 100, k at level 200).

Definition get {S} : M S S := fun t => (Return (self t), t).
Definition put {S} (s : S) : M S unit := fun t => (Return tt, Task s (budget t)).

(** [assert c]. *)
Definition assert {S} (c : bool) : M S unit :=
  if c then ret tt else raise AssertionError.

(** [for x in l: body x]. *)
Fixpoint for_each {S X} (l : list X) (body : X -> M S unit) : M S unit :=
  match l with
  | [] => ret tt
  | x :: l' => let* _ := body x in for_each l' body
  end.

(** [for x in l: acc = body x acc], for a loop that updates one local. *)
Fixpoint for_fold {S X A} (l : list X) (acc : A) (body : X -> A -> M S A) : M S A :=
  match l with
  | [] => ret acc
  | x :: l' => let* acc' := body x acc in for_fold l' acc' body
  end.

(** [with trio.fail_after(seconds): body].  The scopes of this program are
    never nested; the budget of the surrounding code comes back on exit. *)
Definition fail_after {S A} (seconds : Q) (body : M S A) : M S A :=
  fun t =>
    let '(r, t') := body (Task (self t) (Some seconds)) in
    (r, Task (self t') (budget t)).

(** [try: body / except Exception as e: handler e]. *)
Definition try_except {S A} (body : M S A) (handler : exn -> M S A) : M S A :=
  fun t =>
    match body t with
    | (Raise e, t') => handler e t'
    | rt => rt
    end.

(** [exit(code)]. *)
Definition exit {S A} (code : Z) : M S A := fun t => (Exit code, t).

(** Exceptions of a function without state. *)
Definition obind {A B} (o : outcome A) (k : A -> outcome B) : outcome B :=
  match o with
  | Return a => k a
  | Raise e => Raise e
  | Exit c => Exit c
  | Blocked => Blocked
  end.

Notation "'let?' x ':=' c 'in' k" := (obind c (fun x => k))
  (at level 10, x pattern, c at level 100, k at level 200).

(** ** Python strings *)

(** [s.partition(':')] when the separator occurs in [s]. *)
Fixpoint cut (s : string) : option (string * string) :=
  match s with
  | EmptyString => None
  | String c s' =>
      if Ascii.eqb c ":"%char then Some (EmptyString, s')
      else match cut s' with
           | Some (a, b) => Some (String c a, b)
           | None => None
           end
  end.

(** [s.split(':', maxsplit)]. *)
Fixpoint split (maxsplit : nat) (s : string) : list string :=
  match maxsplit with
  | O => [s]
  | S n =>
      match cut s with
      | None => [s]
      | Some (a, b) => a :: split n b
      end
  end.

(** ** The protocol channel *)

Section Openrover.

(** The decoded telemetry values ([Any] in the source). *)
Variable Data : Type.

(** The rounding of the number type, see the head of the file. *)
Variable fl : Q -> Q.

(** The members of the enumeration [CommandVerbs] that the source names;
    an [IntEnum] member is its integer value.  The enumeration is declared
    in [openrover_protocol.py]. *)
Variables NOP GET_DATA SET_FAN_SPEED FLIPPER_CALIBRATE : Z.
Variables RESTART RELOAD_SETTINGS COMMIT_SETTINGS : Z.

(** Whether an integer is the value of a member of [CommandVerbs]. *)
Variable is_CommandVerb : Z -> bool.

(** The builtin [int] on a [str]: [None] when it raises [ValueError]. *)
Variable int_of_str : string -> option Z.

(** [distutils.version.LooseVersion], and the comparison
    [LooseVersion(str(actual)) < expected] of [amain]: [None] when the
    comparison raises [TypeError]. *)
Variable LooseVersion : Type.
Variable version_lt : Data -> LooseVersion -> option bool.

Record CommandFrame : Type := Frame {
  motor_left : Q;
  motor_right : Q;
  motor_flipper : Q;
  verb : Z;
  arg : Z
}.

(** What the decoder yields next: a decoded pair or a failure. *)
Inductive reply : Type :=
  | Decoded (key : Z) (value : Data)
  | Broken (e : exn).

(** The next reply and the time the reader waits for it, counted from the
    moment it starts to wait for it. *)
Record arrival : Type := Arrival { after : Q; what : reply }.

(** Modelled from the spec: the class [OpenRoverProtocol] of
    [openrover_protocol.py], at the level of frames: the queue of submitted
    command frames and the replies the device will produce. *)
Record OpenRoverProtocol : Type := Protocol {
  outgoing : list CommandFrame;
  incoming : list arrival
}.

(** Modelled from the spec: [OpenRoverProtocol.write_nowait], the spec's
    [submit]: validates that the motor values are in the normalized range,
    then appends the frame to the outgoing queue, without waiting. *)
Definition write_nowait (left right flipper : Q) (cmd a : Z) : M OpenRoverProtocol unit :=
  fun t =>
    if between (-1) 1 left && between (-1) 1 right && between (-1) 1 flipper then
      let p := self t in
      (Return tt,
       Task (Protocol (outgoing p ++ [Frame left right flipper cmd a]) (incoming p))
            (budget t))
    else (Raise InvalidMotorValue, t).

Definition deliver (a : arrival) : outcome (Z * Data) :=
  match what a with
  | Decoded k v => Return (k, v)
  | Broken e => Raise e
  end.

(** Modelled from the spec: [OpenRoverProtocol.read_one]: suspends until
    the next reply is decoded and returns its key and value.  A reply that
    is not there when the enclosing scope expires stays in the channel and
    the wait ends with [TooSlowError]. *)
Definition read_one : M OpenRoverProtocol (Z * Data) :=
  fun t =>
    let p := self t in
    match incoming p, budget t with
    | [], None => (Blocked, t)
    | [], Some _ => (Raise TooSlowError, Task p (Some 0%Q))
    | a :: rest, None => (deliver a, Task (Protocol (outgoing p) rest) None)
    | a :: rest, Some b =>
        if Qle_bool b (after a) then
          (Raise TooSlowError,
           Task (Protocol (outgoing p) (Arrival (after a - b) (what a) :: rest)) (Some 0%Q))
        else
          (deliver a, Task (Protocol (outgoing p) rest) (Some (b - after a)%Q))
    end.

(** ** rover.py: class Rover *)

Record Rover : Type := MkRover {
  _motor_left : Q;
  _motor_right : Q;
  _motor_flipper : Q;
  _rover_protocol : option OpenRoverProtocol
}.

(** [Rover.__init__]. *)
Definition Rover_init : Rover := MkRover 0 0 0 None.

(** [Rover.set_device]. *)
Definition set_device (device : OpenRoverProtocol) : M Rover unit :=
  let* r := get in
  put (MkRover (_motor_left r) (_motor_right r) (_motor_flipper r) (Some device)).

(** A call of a method of [self._rover_protocol]. *)
Definition on_protocol {A} (m : M OpenRoverProtocol A) : M Rover A :=
  fun t =>
    let r := self t in
    match _rover_protocol r with
    | None => (Raise AttributeError, t)
    | Some p =>
        let '(x, t') := m (Task p (budget t)) in
        (x, Task (MkRover (_motor_left r) (_motor_right r) (_motor_flipper r)
                          (Some (self t')))
                 (budget t'))
    end.

Definition set_motor_speeds (left right flipper : Q) : M Rover unit :=
  let* _ := assert (between (-1) 1 left) in
  let* _ := assert (between (-1) 1 right) in
  let* _ := assert (between (-1) 1 flipper) in
  let* r := get in
  put (MkRover left right flipper (_rover_protocol r)).

Definition _send_command (cmd a : Z) : M Rover unit :=
  let* r := get in
  on_protocol (write_nowait (_motor_left r) (_motor_right r) (_motor_flipper r) cmd a).

Definition send_speed : M Rover unit := _send_command NOP 0.

Definition set_fan_speed (fan_speed : Q) : M Rover unit :=
  let* _ := assert (between 0 1 fan_speed) in
  _send_command SET_FAN_SPEED (py_int (fl (fan_speed * 240))).

Definition flipper_calibrate : M Rover unit :=
  _send_command FLIPPER_CALIBRATE FLIPPER_CALIBRATE.

Definition get_data (index : Z) : M Rover Data :=
  let* _ := _send_command GET_DATA index in
  let* (k, data) :=
    fail_after 1
      (let* (k, data) := on_protocol read_one in
       if bool_decide (k ≠ index) then raise OpenRoverException
       else ret (k, data)) in
  ret data.

(** [sorted(set(indices))]. *)
Definition sorted_set (indices : list Z) : list Z :=
  merge_sort Z.le (elements (list_to_set indices : gset Z)).

(** [dict.fromkeys(indices)]: every key mapped to [None]. *)
Definition dict_fromkeys (indices : list Z) : gmap Z (option Data) :=
  list_to_map ((fun i => (i, None)) <$> indices).

Definition get_data_items (indices : list Z) : M Rover (gmap Z (option Data)) :=
  let indices := sorted_set indices in
  let result := dict_fromkeys indices in
  let* _ := for_each indices (fun index => _send_command GET_DATA index) in
  let* result :=
    for_fold indices result (fun index result =>
      let* (k, data) :=
        fail_after 1
          (let* (k, data) := on_protocol read_one in
           if bool_decide (k ≠ index) then raise OpenRoverException
           else ret (k, data)) in
      ret (<[k := Some data]> result)) in
  ret result.

(** One guarded read of [get_data] and [get_data_items]. *)
Definition read_expecting (index : Z) : M Rover (Z * Data) :=
  fail_after 1
    (let* (k, data) := on_protocol read_one in
     if bool_decide (k ≠ index) then raise OpenRoverException
     else ret (k, data)).

(** One turn of the second loop of [get_data_items]. *)
Definition read_into (index : Z) (result : gmap Z (option Data)) :
    M Rover (gmap Z (option Data)) :=
  let* (k, data) := read_expecting index in
  ret (<[k := Some data]> result).

(** ** The serial device *)

(** Modelled from the spec: the transport [SerialTrio] of [serial_trio.py],
    acquired by [async with]: entering it raises or gives the device, and
    the frames written to a protocol over the device reach its line.
    [flush] hands the queued bytes to the transport or raises. *)
Record SerialTrio : Type := Serial {
  refuses : option exn;
  write_fails : option exn;
  line : OpenRoverProtocol;
  raw_written : list string
}.

(** [async with SerialTrio(port, baudrate=57600) as device:
       orp = OpenRoverProtocol(device); body]. *)
Definition with_protocol {A} (body : M OpenRoverProtocol A) : M SerialTrio A :=
  fun t =>
    let d := self t in
    match refuses d with
    | Some e => (Raise e, t)
    | None =>
        let '(x, t') := body (Task (line d) (budget t)) in
        (x, Task (Serial (refuses d) (write_fails d) (self t') (raw_written d))
                 (budget t'))
    end.

(** [async with SerialTrio(port, baudrate=BAUDRATE) as ser:
       ser.write_nowait(data)]. *)
Definition with_serial_write (data : string) : M SerialTrio unit :=
  fun t =>
    let d := self t in
    match refuses d with
    | Some e => (Raise e, t)
    | None =>
        (Return tt,
         Task (Serial (refuses d) (write_fails d) (line d) (raw_written d ++ [data]))
              (budget t))
    end.

(** The loop [for i in range(n)] of [get_openrover_version]; falling off
    its end the function returns [None]. *)
Fixpoint version_attempts (n : nat) : M OpenRoverProtocol (option Data) :=
  match n with
  | O => ret None
  | S n' =>
      let* _ := write_nowait 0 0 0 GET_DATA 40 in
      let* (k, version) := read_one in
      if bool_decide (k = 40) then ret (Some version)
      else version_attempts n'
  end.

(** [get_openrover_version(port)], on the device at [port]. *)
Definition get_openrover_version : M SerialTrio (option Data) :=
  try_except
    (fail_after 1 (with_protocol (version_attempts 2)))
    (fun e => raise OpenRoverException).

(** ** pitstop.py *)

(** [CommandVerbs(n)]: the member with value [n]. *)
Definition CommandVerbs (n : Z) : outcome Z :=
  if is_CommandVerb n then Return n else Raise ValueError.

(** [list(map(CommandVerbs, [3, 4, 5, 6, 7, 8]))], evaluated when the
    module is imported. *)
Definition SETTINGS_VERBS : list Z := [3; 4; 5; 6; 7; 8].

(** [k, v = parts]. *)
Definition unpack2 (parts : list string) : outcome (string * string) :=
  match parts with
  | [k; v] => Return (k, v)
  | _ => Raise ValueError
  end.

(** [int(s)] on a [str]. *)
Definition int (s : string) : outcome Z :=
  match int_of_str s with
  | Some n => Return n
  | None => Raise ValueError
  end.

Definition rover_command_arg_pair (arg : string) : outcome (Z * Z) :=
  let? (k, v) := unpack2 (split 2 arg) in
  let? n := int k in
  let? k := CommandVerbs n in
  if negb (bool_decide (k ∈ SETTINGS_VERBS)) then Raise ValueError else
  let? vn := int v in
  if negb ((0 <=? vn) && (vn <=? 255)) then Raise ValueError else
  let? k' := CommandVerbs k in
  let? vn' := int v in
  Return (k', vn').

(** The namespace [argparse] gives [amain]. *)
Record Namespace : Type := Args {
  port : option string;
  flash : option string;
  minimumversion : option LooseVersion;
  updatesettings : option (list (Z * Z))
}.

(** The machine [amain] runs on: the paths [get_ftdi_device_paths()]
    finds, the regular files, the serial devices by path, and the return
    code of the bootloader process for a port and a firmware file. *)
Record Host : Type := MkHost {
  ftdi_device_paths : list string;
  files : string -> bool;
  serial : gmap string SerialTrio;
  booty : string -> string -> Z
}.

(** Truth values of the three optional arguments. *)
Definition truthy_str (o : option string) : bool :=
  match o with
  | Some (String _ _) => true
  | _ => false
  end.

Definition truthy_list {X} (o : option (list X)) : bool :=
  match o with
  | Some (_ :: _) => true
  | _ => false
  end.

(** A block that works on the serial device at [path]. *)
Definition on_serial {A} (path : string) (m : M SerialTrio A) : M Host A :=
  fun t =>
    let h := self t in
    match serial h !! path with
    | None => (Raise OSError, t)
    | Some d =>
        let '(x, t') := m (Task d (budget t)) in
        (x, Task (MkHost (ftdi_device_paths h) (files h)
                         (<[path := self t']> (serial h)) (booty h))
                 (budget t'))
    end.

(** [await orp.flush()], inside [with_protocol]: the queue is handed to the
    transport, or the transport reports a failure. *)
Definition flush (d : SerialTrio) : M OpenRoverProtocol unit :=
  match write_fails d with
  | Some e => raise e
  | None => ret tt
  end.

(** [subprocess.check_call(pargs)] for the bootloader. *)
Definition check_call_booty (path hexfile : string) : M Host unit :=
  let* h := get in
  if bool_decide (booty h path hexfile = 0) then ret tt
  else raise CalledProcessError.

(** The three blocks of [amain] that talk to the rover.  Lines 65 to 69:
    the rover is told to restart. *)
Definition restart_block : M SerialTrio unit :=
  let* ser := get in
  with_protocol (let* _ := write_nowait 0 0 0 RESTART 0 in flush ser).

(** Lines 89 to 95: the version is asked for, with ten time units for the
    reply. *)
Definition version_request : M OpenRoverProtocol (option Data) :=
  let* _ := write_nowait 0 0 0 GET_DATA 40 in
  let* (k, version) := fail_after 10 read_one in
  ret (if bool_decide (k = 40) then Some version else None).

Definition version_block : M SerialTrio (option Data) :=
  with_protocol version_request.

(** Lines 107 to 113: the settings are reloaded, sent and committed. *)
Definition settings_block (l : list (Z * Z)) : M SerialTrio unit :=
  let* ser := get in
  with_protocol
    (let* _ := write_nowait 0 0 0 RELOAD_SETTINGS 0 in
     let* _ := for_each l (fun '(k, v) => write_nowait 0 0 0 k v) in
     let* _ := write_nowait 0 0 0 COMMIT_SETTINGS 0 in
     flush ser).

(** [amain()], after [parser.parse_args()], in the order of the source;
    the printing is left out.  First [parser.error] when no action is
    requested: [argparse] exits with status 2. *)
Definition require_action (args : Namespace) : M Host unit :=
  if negb (truthy_str (flash args) || bool_decide (is_Some (minimumversion args))
           || truthy_list (updatesettings args))
  then exit 2 else ret tt.

(** The device: [args.port], or the first path found. *)
Definition choose_port (args : Namespace) : M Host string :=
  match port args with
  | Some p => ret p
  | None =>
      let* h := get in
      match ftdi_device_paths h with
      | [] => exit 1
      | p :: _ => ret p
      end
  end.

(** [if args.flash is not None: ...]. *)
Definition flash_firmware (port : string) (args : Namespace) : M Host unit :=
  match flash args with
  | Some hexfile =>
      let* h := get in
      let* _ := if negb (files h hexfile) then exit 1 else ret tt in
      let* _ := on_serial port restart_block in
      let* _ := check_call_booty port hexfile in
      on_serial port (with_serial_write "f701004041437f")
  | None => ret tt
  end.

(** [if args.minimumversion is not None: ...]. *)
Definition check_version (port : string) (args : Namespace) : M Host unit :=
  match minimumversion args with
  | Some expected_version =>
      let* actual_version := on_serial port version_block in
      match actual_version with
      | None => exit 1
      | Some actual =>
          match version_lt actual expected_version with
          | None => raise TypeError
          | Some true => exit 1
          | Some false => ret tt
          end
      end
  | None => ret tt
  end.

(** [if args.updatesettings: ...]. *)
Definition update_settings (port : string) (args : Namespace) : M Host unit :=
  if truthy_list (updatesettings args) then
    on_serial port (settings_block (default [] (updatesettings args)))
  else ret tt.

Definition amain (args : Namespace) : M Host unit :=
  let* _ := require_action args in
  let* port := choose_port args in
  let* _ := flash_firmware port args in
  let* _ := check_version port args in
  let* _ := update_settings port args in
  exit 0.

(** The status the process ends with: the code of [exit], 1 for an
    exception that nothing catches, and none when it never ends. *)
Definition exit_status {A} (o : outcome A) : option Z :=
  match o with
  | Return _ => Some 0
  | Raise _ => Some 1
  | Exit code => Some code
  | Blocked => None
  end.

(** ** The vocabulary of the statements *)

(** The motor triple of a rover, the triple a frame carries, and the
    frames queued on the rover's channel. *)
Definition motors (r : Rover) : Q * Q * Q :=
  (_motor_left r, _motor_right r, _motor_flipper r).

Definition frame_motors (f : CommandFrame) : Q * Q * Q :=
  (motor_left f, motor_right f, motor_flipper f).

Definition queued (r : Rover) : list CommandFrame :=
  match _rover_protocol r with
  | Some p => outgoing p
  | None => []
  end.

(** The invariant of the class: every stored motor value is in [-1, 1]. *)
Definition motors_ok (r : Rover) : Prop :=
  (-1 <= _motor_left r <= 1)%Q /\ (-1 <= _motor_right r <= 1)%Q /\
  (-1 <= _motor_flipper r <= 1)%Q.

(** [same_motors]: the motor triple is the same. *)
Definition same_motors : relation Rover := fun r r' => motors r' = motors r.

(** [submits]: the motor triple is the same and the frames that were added
    to the queue all carry it. *)
Definition submits : relation Rover := fun r r' =>
  motors r' = motors r /\
  exists new, queued r' = queued r ++ new /\
              Forall (fun f => frame_motors f = motors r) new.

(** [reads]: only the incoming side of the channel changed. *)
Definition reads : relation Rover := fun r r' =>
  motors r' = motors r /\ queued r' = queued r /\
  (_rover_protocol r = None <-> _rover_protocol r' = None).

(** The frames an operation added to the queue all carry the motor triple
    the rover had when the operation ran. *)
Definition adds_current_motors {A} (m : M Rover A) (t : task Rover) : Prop :=
  exists new,
    queued (self (m t).2) = queued (self t) ++ new /\
    Forall (fun f => frame_motors f = motors (self t)) new.

(** The rover after its channel became [p']. *)
Definition with_channel (r : Rover) (p' : OpenRoverProtocol) : Rover :=
  MkRover (_motor_left r) (_motor_right r) (_motor_flipper r) (Some p').

(** The frame that asks for the data element [index]. *)
Definition request (r : Rover) (index : Z) : CommandFrame :=
  Frame (_motor_left r) (_motor_right r) (_motor_flipper r) GET_DATA index.

(** The argument [set_fan_speed] computes: [int(fan_speed * 240)]. *)
Definition fan_duty (fan_speed : Q) : Z := py_int (fl (fan_speed * 240)).

(** The reply [a] answers the request for [i] in time. *)
Definition answers (i : Z) (a : arrival) : Prop :=
  (after a < 1)%Q /\ exists v, what a = Decoded i v.

(** The dictionary after the replies were stored. *)
Definition fill (acc : gmap Z (option Data)) (replies : list arrival) :
    gmap Z (option Data) :=
  foldl (fun m a =>
           match what a with
           | Decoded k v => <[k := Some v]> m
           | Broken _ => m
           end) acc replies.

(** The frame [get_openrover_version] writes. *)
Definition probe : CommandFrame := Frame 0 0 0 GET_DATA 40.

(** A string without colon. *)
Definition colon_free (s : string) : Prop :=
  forall a b : string, s <> (a +:+ String ":" b).

(** What [rover_command_arg_pair] gives on the two parts of the argument. *)
Definition pair_of_parts (k v : string) : outcome (Z * Z) :=
  match int_of_str k, int_of_str v with
  | Some n, Some vn =>
      if is_CommandVerb n && (3 <=? n) && (n <=? 8) && (0 <=? vn) && (vn <=? 255)
      then Return (n, vn) else Raise ValueError
  | _, _ => Raise ValueError
  end.

(** The device [amain] works on: [args.port], or the first path found. *)
Definition chosen_port (args : Namespace) (h : Host) : option string :=
  match port args with
  | Some p => Some p
  | None => head (ftdi_device_paths h)
  end.

(** What a block on the device leaves as it was: whether the device opens
    and takes writes, and, for [keep], the replies still to come. *)
Definition dev_same (keep : bool) (d d' : SerialTrio) : Prop :=
  refuses d' = refuses d /\ write_fails d' = write_fails d /\
  (keep = true -> incoming (line d') = incoming (line d)).

Definition host_same (keep : bool) (p : string) (h h' : Host) : Prop :=
  ftdi_device_paths h' = ftdi_device_paths h /\ files h' = files h /\
  booty h' = booty h /\
  match serial h !! p, serial h' !! p with
  | Some d, Some d' => dev_same keep d d'
  | None, None => True
  | _, _ => False
  end.

(** A step of [amain] either returns, leaving the host as it was in these
    respects, or ends the process with status 1. *)
Definition carries_on (keep : bool) (p : string) (t : task Host)
    (r : outcome unit * task Host) : Prop :=
  (r.1 = Return tt /\ host_same keep p (self t) (self r.2)) \/
  exit_status r.1 = Some 1.

(** The reply the version block reads is in time, for element 40. *)
Definition version_reply (inc : list arrival) (v : Data) : Prop :=
  exists dl rest, inc = Arrival dl (Decoded 40 v) :: rest /\ (dl < 10)%Q.

(** No version is obtained: no reply, a late one, a failure of the channel
    or a reply for another element. *)
Definition no_version_reply (inc : list arrival) : Prop :=
  inc = [] \/
  exists dl w rest, inc = Arrival dl w :: rest /\
    ((10 <= dl)%Q \/ (exists e, w = Broken e) \/ (exists k v, w = Decoded k v /\ k <> 40)).

(** The device at [p] opens and takes writes. *)
Definition device_ready (p : string) (h : Host) : Prop :=
  exists d, serial h !! p = Some d /\ refuses d = None /\ write_fails d = None.

(** What each action needs to succeed. *)
Definition flash_ok (p : string) (args : Namespace) (h : Host) : Prop :=
  forall f, flash args = Some f ->
    files h f = true /\ device_ready p h /\ booty h p f = 0.

Definition version_ok (p : string) (args : Namespace) (h : Host) : Prop :=
  forall m, minimumversion args = Some m ->
    exists d v, serial h !! p = Some d /\ refuses d = None /\
                version_reply (incoming (line d)) v /\ version_lt v m = Some false.

Definition settings_ok (p : string) (args : Namespace) (h : Host) : Prop :=
  truthy_list (updatesettings args) = true -> device_ready p h.

(** All requested actions succeed. *)
Definition all_succeed (args : Namespace) (h : Host) : Prop :=
  exists p, chosen_port args h = Some p /\
            flash_ok p args h /\ version_ok p args h /\ settings_ok p args h.

(** At least one action is requested. *)
Definition action_requested (args : Namespace) : bool :=
  truthy_str (flash args) || bool_decide (is_Some (minimumversion args))
  || truthy_list (updatesettings args).

(** The replies still to come on the rover's channel. *)
Definition pending (r : Rover) : list arrival :=
  match _rover_protocol r with
  | Some p => incoming p
  | None => []
  end.

(** The rover [open_rover] yields over a device: [Rover(nursery)], then
    [set_device(device)]. *)
Definition open_rover (device : OpenRoverProtocol) : Rover :=
  self (set_device device (Task Rover_init None)).2.

(** [m] comes back with a value or an exception, and the time left in the
    surrounding scope is what it was. *)
Definition comes_back {S A} (m : M S A) : Prop :=
  forall t, budget (m t).2 = budget t /\
            ((exists a, (m t).1 = Return a) \/ (exists e, (m t).1 = Raise e)).

(** The calls a user of the class makes on a rover. *)
Inductive call : Type :=
  | Call_set_motor_speeds (left right flipper : Q)
  | Call_send_speed
  | Call_set_fan_speed (fan_speed : Q)
  | Call_flipper_calibrate
  | Call_get_data (index : Z)
  | Call_get_data_items (indices : list Z).

(** The rover after a call, whether the call returned or raised. *)
Definition after_call (c : call) (t : task Rover) : task Rover :=
  match c with
  | Call_set_motor_speeds ml mr mf => (set_motor_speeds ml mr mf t).2
  | Call_send_speed => (send_speed t).2
  | Call_set_fan_speed fan_speed => (set_fan_speed fan_speed t).2
  | Call_flipper_calibrate => (flipper_calibrate t).2
  | Call_get_data index => (get_data index t).2
  | Call_get_data_items indices => (get_data_items indices t).2
  end.

Definition after_calls (cs : list call) (t : task Rover) : task Rover :=
  foldl (fun t c => after_call c t) t cs.

(** The triple of the last [set_motor_speeds] among the calls whose
    arguments are all in range, and [m] when there is none. *)
Definition last_speeds (cs : list call) (m : Q * Q * Q) : Q * Q * Q :=
  foldl (fun m c =>
           match c with
           | Call_set_motor_speeds ml mr mf =>
               if between (-1) 1 ml && between (-1) 1 mr && between (-1) 1 mf
               then (ml, mr, mf) else m
           | _ => m
           end) m cs.

(** [same_rover]: the motor triple is the same and the rover is connected
    as before. *)
Definition same_rover : relation Rover := fun r r' =>
  motors r' = motors r /\ (_rover_protocol r = None <-> _rover_protocol r' = None).

(** [':'.join(parts)]. *)
Fixpoint join (parts : list string) : string :=
  match parts with
  | [] => EmptyString
  | [s] => s
  | s :: rest => s +:+ String ":" (join rest)
  end.

(** [elsewhere_same p]: nothing of the host changed but the device at [p]. *)
Definition elsewhere_same (p : string) : relation Host := fun h h' =>
  ftdi_device_paths h' = ftdi_device_paths h /\ files h' = files h /\
  booty h' = booty h /\
  forall q, q <> p -> serial h' !! q = serial h !! q.

(** The frames and the raw bytes a run of [amain] without failure sends,
    step by step. *)
Definition flash_frames (args : Namespace) : list CommandFrame :=
  match flash args with
  | Some _ => [Frame 0 0 0 RESTART 0]
  | None => []
  end.

Definition flash_raw (args : Namespace) : list string :=
  match flash args with
  | Some _ => ["f701004041437f"%string]
  | None => []
  end.



(** A device that opens and takes writes, with its queue, the replies to
    come and the raw bytes written. *)
Definition healthy (out : list CommandFrame) (inc : list arrival) (raw : list string) :
    SerialTrio :=
  Serial None None (Protocol out inc) raw.

(** The same reads one after the other, as a caller without
    [get_data_items] writes them:
    [for index in indices: result[index] = await rover.get_data(index)]. *)
Definition get_data_each (indices : list Z) : M Rover (gmap Z (option Data)) :=
  for_fold indices (dict_fromkeys indices) (fun index result =>
    let* data := get_data index in
    ret (<[index := Some data]> result)).

(** ** Frame rules

    [stable R m]: whatever [m] returns or raises, the object it ran on is
    related by [R] to what it was. *)

Definition stable {S A} (R : relation S) (m : M S A) : Prop :=
  forall t, R (self t) (self (m t).2).

Section Stable.
Context {S : Type} (R : relation S) `{!Reflexive R} `{!Transitive R}.

Lemma stable_ret {A} (a : A) : stable R (ret a).
Proof. intros t. reflexivity. Qed.

Lemma stable_raise {A} (e : exn) : stable R (raise (A:=A) e).
Proof. intros t. reflexivity. Qed.

Lemma stable_get : stable R get.
Proof. intros t. reflexivity. Qed.

Lemma stable_assert (c : bool) : stable R (assert c).
Proof. destruct c; [apply stable_ret | apply stable_raise]. Qed.

Lemma stable_bind {A B} (m : M S A) (k : A -> M S B) :
  stable R m -> (forall a, stable R (k a)) -> stable R (bind m k).
Proof.
  intros Hm Hk t. unfold bind. specialize (Hm t).
  destruct (m t) as [[a|e|c|] t']; simpl in *; trivial.
  transitivity (self t'); [exact Hm | apply Hk].
Qed.

Lemma stable_for_each {X} (l : list X) (body : X -> M S unit) :
  (forall x, stable R (body x)) -> stable R (for_each l body).
Proof.
  intros Hb. induction l as [|x l IH]; simpl.
  - apply stable_ret.
  - apply stable_bind; [apply Hb | intros _; exact IH].
Qed.

Lemma stable_for_fold {X A} (l : list X) (acc : A) (body : X -> A -> M S A) :
  (forall x a, stable R (body x a)) -> stable R (for_fold l acc body).
Proof.
  intros Hb. revert acc. induction l as [|x l IH]; intros acc; simpl.
  - apply stable_ret.
  - apply stable_bind; [apply Hb | intros a; apply IH].
Qed.

Lemma stable_fail_after {A} (seconds : Q) (m : M S A) :
  stable R m -> stable R (fail_after seconds m).
Proof.
  intros Hm t. unfold fail_after.
  specialize (Hm (Task (self t) (Some seconds))).
  destruct (m _) as [r t']. exact Hm.
Qed.

End Stable.

Set Default Proof Using "Type".

(** Leaves in the context only the parameters the goal speaks of. *)
Ltac sweep :=
  try clear version_lt; try clear LooseVersion; try clear int_of_str;
  try clear is_CommandVerb; try clear NOP; try clear GET_DATA;
  try clear SET_FAN_SPEED; try clear FLIPPER_CALIBRATE; try clear RESTART;
  try clear RELOAD_SETTINGS; try clear COMMIT_SETTINGS; try clear fl.

#[local] Instance same_motors_refl : Reflexive same_motors.
Proof. intros r. reflexivity. Qed.

#[local] Instance same_motors_trans : Transitive same_motors.
Proof. intros a b c H1 H2. unfold same_motors in *. congruence. Qed.

#[local] Instance submits_refl : Reflexive submits.
Proof.
  intros r. split; [reflexivity|]. exists []. rewrite app_nil_r. auto.
Qed.

#[local] Instance submits_trans : Transitive submits.
Proof.
  intros a b c [Hm1 (n1 & Hq1 & Hf1)] [Hm2 (n2 & Hq2 & Hf2)].
  split; [congruence|]. exists (n1 ++ n2). split.
  - rewrite Hq2, Hq1. symmetry. apply app_assoc.
  - apply Forall_app. split; [exact Hf1|]. rewrite <- Hm1. exact Hf2.
Qed.

#[local] Instance reads_refl : Reflexive reads.
Proof. intros r. repeat split; auto. Qed.

#[local] Instance reads_trans : Transitive reads.
Proof. sweep.
  intros a b c (Hm1 & Hq1 & Hn1) (Hm2 & Hq2 & Hn2).
  repeat split; try congruence; tauto.
Qed.

Lemma reads_submits r r' : reads r r' -> submits r r'.
Proof.
  intros (Hm & Hq & _). split; [exact Hm|]. exists [].
  rewrite app_nil_r. auto.
Qed.

Lemma submits_same_motors r r' : submits r r' -> same_motors r r'.
Proof. intros [Hm _]. exact Hm. Qed.

Lemma stable_weaken {S A} (R R' : relation S) (m : M S A) :
  (forall s s', R s s' -> R' s s') -> stable R m -> stable R' m.
Proof. intros Himp Hm t. apply Himp, Hm. Qed.

Lemma send_command_submits cmd a : stable submits (_send_command cmd a).
Proof.
  intros [r b]. unfold _send_command, bind, get, on_protocol, write_nowait. simpl.
  destruct (_rover_protocol r) as [p|] eqn:Hp; simpl; [|reflexivity].
  destruct (between (-1) 1 (_motor_left r) && between (-1) 1 (_motor_right r)
            && between (-1) 1 (_motor_flipper r)); simpl.
  - split; [reflexivity|]. unfold queued; simpl. rewrite Hp.
    eexists. split; [reflexivity|]. repeat constructor.
  - split; [reflexivity|]. exists []. unfold queued; simpl. rewrite Hp, app_nil_r.
    auto.
Qed.

Lemma read_one_reads : stable reads (on_protocol read_one).
Proof.
  intros [r b]. unfold on_protocol, read_one. simpl.
  destruct (_rover_protocol r) as [p|] eqn:Hp; simpl; [|reflexivity].
  destruct (incoming p) as [|a rest], b as [b|]; simpl;
    try destruct (Qle_bool b (after a)); simpl;
    (split; [reflexivity|]; unfold queued; simpl; rewrite Hp; split; [reflexivity|];
     split; intros; congruence).
Qed.

Lemma read_expecting_reads index : stable reads (read_expecting index).
Proof.
  apply stable_fail_after, stable_bind; [tc_solve | apply read_one_reads |].
  intros [k d]. destruct (bool_decide (k ≠ index));
    [apply stable_raise | apply stable_ret]; tc_solve.
Qed.

Lemma get_data_submits index : stable submits (get_data index).
Proof.
  apply stable_bind; [tc_solve | apply send_command_submits |]. intros _.
  apply stable_bind; [tc_solve | | intros [k d]; apply stable_ret; tc_solve].
  apply (stable_weaken reads); [apply reads_submits | apply read_expecting_reads].
Qed.

Lemma get_data_items_submits indices : stable submits (get_data_items indices).
Proof.
  apply stable_bind; [tc_solve | | intros _].
  - apply stable_for_each; [tc_solve..|]. intros x. apply send_command_submits.
  - apply stable_bind; [tc_solve | | intros m; apply stable_ret; tc_solve].
    apply stable_for_fold; [tc_solve..|]. intros x acc.
    apply stable_bind; [tc_solve | | intros [k d]; apply stable_ret; tc_solve].
    apply (stable_weaken reads); [apply reads_submits | apply read_expecting_reads].
Qed.

Lemma set_fan_speed_submits fan_speed : stable submits (set_fan_speed fan_speed).
Proof.
  apply stable_bind; [tc_solve | apply stable_assert; tc_solve |].
  intros _. apply send_command_submits.
Qed.

(** ** The range checks *)

Lemma between_spec lo hi x :
  between lo hi x = true <-> (lo <= x <= hi)%Q.
Proof.
  unfold between. rewrite andb_true_iff, !Qle_bool_iff. reflexivity.
Qed.

Lemma between_false lo hi x :
  between lo hi x = false <-> ~ (lo <= x <= hi)%Q.
Proof.
  rewrite <- between_spec. destruct (between lo hi x); split; congruence.
Qed.

Lemma send_command_connected r p b cmd a :
  _rover_protocol r = Some p -> motors_ok r ->
  _send_command cmd a (Task r b) =
    (Return tt,
     Task (MkRover (_motor_left r) (_motor_right r) (_motor_flipper r)
             (Some (Protocol
                      (outgoing p ++
                       [Frame (_motor_left r) (_motor_right r) (_motor_flipper r) cmd a])
                      (incoming p))))
          b).
Proof.
  intros Hp (Hl & Hr & Hf).
  apply between_spec in Hl, Hr, Hf.
  unfold _send_command, bind, get, on_protocol, write_nowait. simpl.
  rewrite Hp. simpl. rewrite Hl, Hr, Hf. reflexivity.
Qed.

(** What [set_motor_speeds] does, case by case. *)
Lemma set_motor_speeds_accepts left right flipper t :
  (-1 <= left <= 1)%Q -> (-1 <= right <= 1)%Q -> (-1 <= flipper <= 1)%Q ->
  set_motor_speeds left right flipper t =
    (Return tt, Task (MkRover left right flipper (_rover_protocol (self t))) (budget t)).
Proof.
  intros Hl Hr Hf. apply between_spec in Hl, Hr, Hf.
  unfold set_motor_speeds, bind, assert, get, put, ret.
  rewrite Hl, Hr, Hf. reflexivity.
Qed.

Lemma set_motor_speeds_rejects left right flipper t :
  ~ ((-1 <= left <= 1)%Q /\ (-1 <= right <= 1)%Q /\ (-1 <= flipper <= 1)%Q) ->
  set_motor_speeds left right flipper t = (Raise AssertionError, t).
Proof. sweep.
  intros Hout. unfold set_motor_speeds, bind, assert, get, put, ret, raise.
  destruct (between (-1) 1 left) eqn:Hl; [|reflexivity].
  destruct (between (-1) 1 right) eqn:Hr; [|reflexivity].
  destruct (between (-1) 1 flipper) eqn:Hf; [|reflexivity].
  apply between_spec in Hl, Hr, Hf. tauto.
Qed.

Lemma in_range_dec (x : Q) : {(-1 <= x <= 1)%Q} + {~ (-1 <= x <= 1)%Q}.
Proof.
  destruct (between (-1) 1 x) eqn:H.
  - left. apply between_spec, H.
  - right. apply between_false, H.
Qed.

(** The rover [open_rover] yields is connected and satisfies the invariant,
    and the operations that submit frames keep the invariant. *)
Lemma open_rover_ready (device : OpenRoverProtocol) (b : option Q) :
  set_device device (Task Rover_init b) =
    (Return tt, Task (MkRover 0 0 0 (Some device)) b) /\
  motors_ok (MkRover 0 0 0 (Some device)).
Proof.
  split; [reflexivity|]. unfold motors_ok, Qle; simpl. lia.
Qed.

Lemma submits_keeps_ok r r' : submits r r' -> motors_ok r -> motors_ok r'.
Proof.
  intros [Hm _] Hok. unfold motors in Hm. inversion Hm as [[Hl Hr Hf]].
  unfold motors_ok. rewrite Hl, Hr, Hf. exact Hok.
Qed.

(** C4.  [set_motor_speeds] keeps every motor value in [-1, 1]: a call with
    a component outside [-1, 1] raises [AssertionError] and queues no frame,
    and after a call that returns, each stored component is in [-1, 1] (and
    no frame was queued by it either). *)
Theorem set_motor_speeds_keeps_range left right flipper (t : task Rover) :
  (~ ((-1 <= left <= 1)%Q /\ (-1 <= right <= 1)%Q /\ (-1 <= flipper <= 1)%Q) ->
     (set_motor_speeds left right flipper t).1 = Raise AssertionError /\
     queued (self (set_motor_speeds left right flipper t).2) = queued (self t)) /\
  (forall u t', set_motor_speeds left right flipper t = (Return u, t') ->
     motors_ok (self t') /\ motors (self t') = (left, right, flipper) /\
     queued (self t') = queued (self t)).
Proof. sweep.
  split.
  - intros Hout. rewrite set_motor_speeds_rejects by exact Hout. split; reflexivity.
  - intros u t' Hrun.
    destruct (in_range_dec left) as [Hl|Hl];
      [destruct (in_range_dec right) as [Hr|Hr];
         [destruct (in_range_dec flipper) as [Hf|Hf]|]|];
      try (rewrite set_motor_speeds_rejects in Hrun by tauto; discriminate).
    rewrite set_motor_speeds_accepts in Hrun by assumption.
    inversion Hrun; subst. unfold motors_ok, motors, queued. simpl. auto.
Qed.

(** C9.  A call of [set_motor_speeds] with a component out of range leaves
    the rover as it was: the three checks come before the three
    assignments, so no field is assigned by a rejected call. *)
Theorem set_motor_speeds_rejected_unchanged left right flipper (t : task Rover) :
  ~ (-1 <= left <= 1)%Q \/ ~ (-1 <= right <= 1)%Q \/ ~ (-1 <= flipper <= 1)%Q ->
  (set_motor_speeds left right flipper t).2 = t /\
  _motor_left (self (set_motor_speeds left right flipper t).2) = _motor_left (self t) /\
  _motor_right (self (set_motor_speeds left right flipper t).2) = _motor_right (self t) /\
  _motor_flipper (self (set_motor_speeds left right flipper t).2) = _motor_flipper (self t).
Proof. sweep.
  intros Hout. rewrite set_motor_speeds_rejects by tauto. simpl. auto.
Qed.

(** C10.  No operation of the class other than [set_motor_speeds] changes
    the stored motor triple, whether it returns or raises. *)
Theorem only_set_motor_speeds_changes_motors
    (t : task Rover) (cmd a : Z) (fan_speed : Q) (index : Z) (indices : list Z) :
  motors (self (_send_command cmd a t).2) = motors (self t) /\
  motors (self (send_speed t).2) = motors (self t) /\
  motors (self (set_fan_speed fan_speed t).2) = motors (self t) /\
  motors (self (flipper_calibrate t).2) = motors (self t) /\
  motors (self (get_data index t).2) = motors (self t) /\
  motors (self (get_data_items indices t).2) = motors (self t).
Proof.
  repeat split.
  - apply (send_command_submits cmd a t).
  - apply (send_command_submits NOP 0 t).
  - apply (set_fan_speed_submits fan_speed t).
  - apply (send_command_submits FLIPPER_CALIBRATE FLIPPER_CALIBRATE t).
  - apply (get_data_submits index t).
  - apply (get_data_items_submits indices t).
Qed.

(** C2.  Every frame an operation of the class submits carries the motor
    triple of the rover at that time, whatever the verb and the argument:
    all of them submit through [_send_command], which on a connected rover
    appends the frame made of the current triple, the verb and the
    argument. *)
Theorem every_frame_carries_current_motors
    (t : task Rover) (cmd a : Z) (fan_speed : Q) (index : Z) (indices : list Z) :
  adds_current_motors (_send_command cmd a) t /\
  adds_current_motors send_speed t /\
  adds_current_motors (set_fan_speed fan_speed) t /\
  adds_current_motors flipper_calibrate t /\
  adds_current_motors (get_data index) t /\
  adds_current_motors (get_data_items indices) t /\
  (forall p, _rover_protocol (self t) = Some p -> motors_ok (self t) ->
     (_send_command cmd a t).1 = Return tt /\
     queued (self (_send_command cmd a t).2) =
       queued (self t) ++
       [Frame (_motor_left (self t)) (_motor_right (self t))
              (_motor_flipper (self t)) cmd a]).
Proof.
  repeat split.
  - apply (send_command_submits cmd a t).
  - apply (send_command_submits NOP 0 t).
  - apply (set_fan_speed_submits fan_speed t).
  - apply (send_command_submits FLIPPER_CALIBRATE FLIPPER_CALIBRATE t).
  - apply (get_data_submits index t).
  - apply (get_data_items_submits indices t).
  - destruct t as [r b]; simpl in *.
    rewrite (send_command_connected r p b cmd a) by assumption. reflexivity.
  - destruct t as [r b]; simpl in *.
    rewrite (send_command_connected r p b cmd a) by assumption.
    unfold queued; simpl. rewrite H. reflexivity.
Qed.

(** ** Guarded reads *)

Lemma Qle_bool_false (x y : Q) : Qle_bool x y = false <-> (y < x)%Q.
Proof.
  split.
  - intros H. apply Qnot_le_lt. intros Hle. apply Qle_bool_iff in Hle. congruence.
  - intros H. destruct (Qle_bool x y) eqn:E; [|reflexivity].
    apply Qle_bool_iff in E. exfalso. exact (Qlt_not_le _ _ H E).
Qed.

Lemma read_expecting_in_time r p b index d k v rest :
  _rover_protocol r = Some p ->
  incoming p = Arrival d (Decoded k v) :: rest -> (d < 1)%Q ->
  read_expecting index (Task r b) =
    (if bool_decide (k ≠ index) then Raise OpenRoverException else Return (k, v),
     Task (with_channel r (Protocol (outgoing p) rest)) b).
Proof.
  intros Hp Hin Hd. apply Qle_bool_false in Hd.
  unfold read_expecting, fail_after, bind, on_protocol, read_one. simpl.
  rewrite Hp. simpl. rewrite Hin. simpl. rewrite Hd. unfold deliver. simpl.
  destruct (bool_decide (k ≠ index)); reflexivity.
Qed.

Lemma read_expecting_late r p b index d w rest :
  _rover_protocol r = Some p ->
  incoming p = Arrival d w :: rest -> (1 <= d)%Q ->
  read_expecting index (Task r b) =
    (Raise TooSlowError,
     Task (with_channel r (Protocol (outgoing p) (Arrival (d - 1) w :: rest))) b).
Proof.
  intros Hp Hin Hd. apply Qle_bool_iff in Hd.
  unfold read_expecting, fail_after, bind, on_protocol, read_one. simpl.
  rewrite Hp. simpl. rewrite Hin. simpl. rewrite Hd. reflexivity.
Qed.

Lemma read_expecting_silence r p b index :
  _rover_protocol r = Some p -> incoming p = [] ->
  read_expecting index (Task r b) =
    (Raise TooSlowError, Task (with_channel r p) b).
Proof.
  intros Hp Hin.
  unfold read_expecting, fail_after, bind, on_protocol, read_one. simpl.
  rewrite Hp. simpl. rewrite Hin. reflexivity.
Qed.

Lemma read_expecting_broken r p b index d e rest :
  _rover_protocol r = Some p ->
  incoming p = Arrival d (Broken e) :: rest -> (d < 1)%Q ->
  read_expecting index (Task r b) =
    (Raise e, Task (with_channel r (Protocol (outgoing p) rest)) b).
Proof.
  intros Hp Hin Hd. apply Qle_bool_false in Hd.
  unfold read_expecting, fail_after, bind, on_protocol, read_one. simpl.
  rewrite Hp. simpl. rewrite Hin. simpl. rewrite Hd. reflexivity.
Qed.

Lemma get_data_unfold index t :
  get_data index t =
    match _send_command GET_DATA index t with
    | (Return _, t1) =>
        match read_expecting index t1 with
        | (Return (k, data), t2) => (Return data, t2)
        | (Raise e, t2) => (Raise e, t2)
        | (Exit c, t2) => (Exit c, t2)
        | (Blocked, t2) => (Blocked, t2)
        end
    | (Raise e, t1) => (Raise e, t1)
    | (Exit c, t1) => (Exit c, t1)
    | (Blocked, t1) => (Blocked, t1)
    end.
Proof.
  unfold get_data, read_expecting, bind.
  destruct (_send_command GET_DATA index t) as [[u|e|c|] t1]; try reflexivity.
  destruct (fail_after 1 _ t1) as [[[k d]|e|c|] t2]; reflexivity.
Qed.

(** C3.  [get_data index] on a connected rover submits the frame
    [GET_DATA index] and reads one reply with one time unit to wait.  A
    reply in time whose key is [index] gives its value; a reply in time with
    another key raises [OpenRoverException], and that reply is consumed:
    it is neither returned nor put back.  A reply that takes one time unit
    or more, or no reply at all, raises [TooSlowError]. *)
Theorem get_data_checks_key (r : Rover) (p : OpenRoverProtocol) (b : option Q) (index : Z) :
  _rover_protocol r = Some p -> motors_ok r ->
  let sent := outgoing p ++ [request r index] in
  (forall d k v rest,
     incoming p = Arrival d (Decoded k v) :: rest -> (d < 1)%Q ->
     (k = index ->
        get_data index (Task r b) =
          (Return v, Task (with_channel r (Protocol sent rest)) b)) /\
     (k <> index ->
        get_data index (Task r b) =
          (Raise OpenRoverException, Task (with_channel r (Protocol sent rest)) b))) /\
  (forall d w rest,
     incoming p = Arrival d w :: rest -> (1 <= d)%Q ->
     get_data index (Task r b) =
       (Raise TooSlowError,
        Task (with_channel r (Protocol sent (Arrival (d - 1) w :: rest))) b)) /\
  (incoming p = [] ->
     get_data index (Task r b) =
       (Raise TooSlowError, Task (with_channel r (Protocol sent [])) b)).
Proof.
  intros Hp Hok sent.
  assert (Hsend := send_command_connected r p b GET_DATA index Hp Hok).
  fold (request r index) in Hsend. fold sent in Hsend.
  repeat split.
  - intros ->. rewrite get_data_unfold, Hsend.
    erewrite read_expecting_in_time; [|reflexivity|simpl; eassumption|assumption].
    rewrite bool_decide_eq_false_2 by (intros Hne; apply Hne; reflexivity).
    reflexivity.
  - intros Hne. rewrite get_data_unfold, Hsend.
    erewrite read_expecting_in_time; [|reflexivity|simpl; eassumption|assumption].
    rewrite bool_decide_eq_true_2 by exact Hne. reflexivity.
  - intros d w rest Hin Hd. rewrite get_data_unfold, Hsend.
    erewrite read_expecting_late; [|reflexivity|simpl; eassumption|assumption].
    reflexivity.
  - intros Hin. rewrite get_data_unfold, Hsend.
    erewrite read_expecting_silence; [|reflexivity|simpl; assumption].
    unfold with_channel. simpl. rewrite <- Hin. reflexivity.
Qed.

(** ** The fan *)

Section FanSpeed.

(** The rounding of a number type is monotone and leaves the two ends of
    the duty range as they are. *)
Hypothesis fl_monotone : forall x y : Q, (x <= y)%Q -> (fl x <= fl y)%Q.
Hypothesis fl_0 : (fl 0 == 0)%Q.
Hypothesis fl_240 : (fl 240 == 240)%Q.

Set Default Proof Using "Type fl_monotone fl_0 fl_240".

Lemma fl_proper (x y : Q) : (x == y)%Q -> (fl x == fl y)%Q.
Proof.
  intros E. apply Qle_antisym; apply fl_monotone; rewrite E; apply Qle_refl.
Qed.

Lemma py_int_nonneg (x : Q) : (0 <= x)%Q -> py_int x = Qfloor x.
Proof.
  intros H. unfold py_int. apply Qle_bool_iff in H. rewrite H. reflexivity.
Qed.

Lemma fl_scaled_nonneg (x : Q) : (0 <= x)%Q -> (0 <= fl (x * 240))%Q.
Proof.
  intros H. rewrite <- fl_0. apply fl_monotone. lra.
Qed.

Lemma fan_duty_floor (x : Q) : (0 <= x)%Q -> fan_duty x = Qfloor (fl (x * 240)).
Proof. intros H. apply py_int_nonneg, fl_scaled_nonneg, H. Qed.

Lemma fan_duty_monotone (x y : Q) :
  (0 <= x)%Q -> (x <= y)%Q -> fan_duty x <= fan_duty y.
Proof.
  intros Hx Hxy. rewrite !fan_duty_floor by lra.
  apply Qfloor_resp_le, fl_monotone. lra.
Qed.

Lemma fan_duty_0 (x : Q) : (x == 0)%Q -> fan_duty x = 0.
Proof.
  intros E. rewrite fan_duty_floor by lra.
  rewrite (Qfloor_comp _ 0); [reflexivity|].
  rewrite <- fl_0. apply fl_proper. lra.
Qed.

Lemma fan_duty_1 (x : Q) : (x == 1)%Q -> fan_duty x = 240.
Proof.
  intros E. rewrite fan_duty_floor by lra.
  rewrite (Qfloor_comp _ (inject_Z 240)); [apply Qfloor_Z|].
  change (inject_Z 240) with 240%Q.
  rewrite <- fl_240 at 2. apply fl_proper. lra.
Qed.

(** C7.  For a fraction in [0, 1], [set_fan_speed] on a connected rover
    submits exactly one frame, with the verb [SET_FAN_SPEED] and the integer
    [int(fan_speed * 240)], which lies in 0..240, grows with the fraction,
    is 0 at 0 and 240 at 1; a fraction outside [0, 1] raises
    [AssertionError] and nothing is submitted. *)
Theorem set_fan_speed_scales (r : Rover) (p : OpenRoverProtocol) (b : option Q)
    (fan_speed : Q) :
  _rover_protocol r = Some p -> motors_ok r ->
  ((0 <= fan_speed <= 1)%Q ->
     set_fan_speed fan_speed (Task r b) =
       (Return tt,
        Task (with_channel r
                (Protocol
                   (outgoing p ++
                    [Frame (_motor_left r) (_motor_right r) (_motor_flipper r)
                           SET_FAN_SPEED (fan_duty fan_speed)])
                   (incoming p)))
             b) /\
     0 <= fan_duty fan_speed <= 240) /\
  (forall x y : Q, (0 <= x)%Q -> (x <= y)%Q -> (y <= 1)%Q -> fan_duty x <= fan_duty y) /\
  (forall x : Q, (x == 0)%Q -> fan_duty x = 0) /\
  (forall x : Q, (x == 1)%Q -> fan_duty x = 240) /\
  (~ (0 <= fan_speed <= 1)%Q ->
     set_fan_speed fan_speed (Task r b) = (Raise AssertionError, Task r b)).
Proof.
  intros Hp Hok. repeat split.
  - unfold set_fan_speed, bind, assert.
    apply between_spec in H. rewrite H. simpl.
    rewrite (send_command_connected r p b) by assumption. reflexivity.
  - rewrite <- (fan_duty_0 0) by reflexivity. apply fan_duty_monotone; lra.
  - rewrite <- (fan_duty_1 1) by reflexivity. apply fan_duty_monotone; lra.
  - intros x y Hx Hxy _. apply fan_duty_monotone; assumption.
  - apply fan_duty_0.
  - apply fan_duty_1.
  - intros Hout. apply between_false in Hout.
    unfold set_fan_speed, bind, assert. rewrite Hout. reflexivity.
Qed.

End FanSpeed.

Set Default Proof Using "Type".

(** ** Batches *)

Lemma sorted_set_elem (l : list Z) (i : Z) : i ∈ sorted_set l <-> i ∈ l.
Proof.
  unfold sorted_set. rewrite merge_sort_Permutation, elem_of_elements.
  apply elem_of_list_to_set.
Qed.

Lemma sorted_set_NoDup (l : list Z) : NoDup (sorted_set l).
Proof.
  unfold sorted_set. rewrite merge_sort_Permutation. apply NoDup_elements.
Qed.

Lemma sorted_set_le (l : list Z) : StronglySorted Z.le (sorted_set l).
Proof. apply StronglySorted_merge_sort; tc_solve. Qed.

Lemma strict_of_NoDup (l : list Z) :
  NoDup l -> StronglySorted Z.le l -> StronglySorted Z.lt l.
Proof.
  induction 1 as [|x l Hx Hnd IH]; intros Hs; [constructor|].
  apply StronglySorted_cons in Hs as [Hall Hs].
  constructor; [auto|].
  rewrite Forall_forall in Hall |- *. intros y Hy.
  specialize (Hall y Hy). assert (x ≠ y) by (intros ->; contradiction). lia.
Qed.

Lemma sorted_set_ascending (l : list Z) : StronglySorted Z.lt (sorted_set l).
Proof. apply strict_of_NoDup; [apply sorted_set_NoDup | apply sorted_set_le]. Qed.

Lemma sorted_set_same_set (l : list Z) :
  (list_to_set (sorted_set l) : gset Z) = list_to_set l.
Proof.
  apply set_eq. intros i. rewrite !elem_of_list_to_set. apply sorted_set_elem.
Qed.

Lemma dict_fromkeys_dom (idx : list Z) : dom (dict_fromkeys idx) = list_to_set idx.
Proof.
  unfold dict_fromkeys. rewrite dom_list_to_map_L. f_equal.
  induction idx as [|i idx IH]; simpl; [reflexivity|]. f_equal. exact IH.
Qed.

Lemma fill_dom idx replies :
  Forall2 answers idx replies ->
  forall acc, dom (fill acc replies) = list_to_set idx ∪ dom acc.
Proof.
  induction 1 as [|i a idx replies [_ [v Hv]] _ IH]; intros acc; simpl.
  - symmetry. apply (left_id_L ∅ (∪)).
  - rewrite Hv, IH, dom_insert_L.
    rewrite (comm_L (∪) {[i]} (list_to_set idx)).
    apply (assoc_L (∪)).
Qed.

Lemma fill_other idx replies i :
  Forall2 answers idx replies -> i ∉ idx ->
  forall acc, fill acc replies !! i = acc !! i.
Proof.
  induction 1 as [|j a idx replies [_ [v Hv]] _ IH]; intros Hni acc; simpl.
  - reflexivity.
  - apply not_elem_of_cons in Hni as [Hne Hni].
    rewrite Hv, IH by exact Hni. apply lookup_insert_ne. congruence.
Qed.

Lemma fill_lookup idx replies :
  Forall2 answers idx replies -> NoDup idx ->
  forall acc (j : nat) i a,
    idx !! j = Some i -> replies !! j = Some a ->
    exists v, what a = Decoded i v /\ fill acc replies !! i = Some (Some v).
Proof.
  induction 1 as [|i0 a0 idx replies [_ [v Hv]] Hall IH];
    intros Hnd acc j i a Hi Ha; [discriminate|].
  apply NoDup_cons in Hnd as [Hni Hnd].
  destruct j as [|j]; simpl in *.
  - inversion Hi; inversion Ha; subst. exists v. split; [exact Hv|].
    rewrite Hv, (fill_other idx) by assumption. apply lookup_insert_eq.
  - rewrite Hv. eapply IH; eassumption.
Qed.

Lemma with_channel_ok r p : motors_ok r -> motors_ok (with_channel r p).
Proof. intros H. exact H. Qed.

Lemma request_loop r b idx :
  motors_ok r -> forall p,
  for_each idx (fun index => _send_command GET_DATA index) (Task (with_channel r p) b) =
    (Return tt,
     Task (with_channel r (Protocol (outgoing p ++ (request r <$> idx)) (incoming p))) b).
Proof.
  intros Hok. induction idx as [|i idx IH]; intros p; simpl.
  - unfold ret. rewrite app_nil_r. destruct p; reflexivity.
  - unfold bind.
    rewrite (send_command_connected (with_channel r p) p b GET_DATA i eq_refl
               (with_channel_ok r p Hok)).
    simpl. fold (request r i).
    change (MkRover (_motor_left r) (_motor_right r) (_motor_flipper r)
              (Some (Protocol (outgoing p ++ [request r i]) (incoming p))))
      with (with_channel r (Protocol (outgoing p ++ [request r i]) (incoming p))).
    rewrite IH. simpl. rewrite <- app_assoc. reflexivity.
Qed.

Lemma for_fold_cons {S X A} (x : X) (l : list X) (acc : A)
    (body : X -> A -> M S A) (t : task S) :
  for_fold (x :: l) acc body t =
    match body x acc t with
    | (Return a, t') => for_fold l a body t'
    | (Raise e, t') => (Raise e, t')
    | (Exit c, t') => (Exit c, t')
    | (Blocked, t') => (Blocked, t')
    end.
Proof. reflexivity. Qed.

Lemma read_into_in_time r out b i d k v rest acc :
  (d < 1)%Q ->
  read_into i acc (Task (with_channel r (Protocol out (Arrival d (Decoded k v) :: rest))) b) =
    (if bool_decide (k ≠ i) then Raise OpenRoverException
     else Return (<[k := Some v]> acc),
     Task (with_channel r (Protocol out rest)) b).
Proof.
  intros Hd. unfold read_into, bind.
  erewrite read_expecting_in_time; [|reflexivity|reflexivity|exact Hd].
  destruct (bool_decide (k ≠ i)); reflexivity.
Qed.

Lemma read_into_other r out b i acc inc :
  (inc = [] \/
   (exists d w rest, inc = Arrival d w :: rest /\ (1 <= d)%Q) \/
   (exists d e rest, inc = Arrival d (Broken e) :: rest /\ (d < 1)%Q)) ->
  exists e, (read_into i acc (Task (with_channel r (Protocol out inc)) b)).1 = Raise e.
Proof.
  intros [->|[(d & w & rest & -> & Hd)|(d & e & rest & -> & Hd)]];
    unfold read_into, bind.
  - erewrite read_expecting_silence; [|reflexivity|reflexivity]. eauto.
  - erewrite read_expecting_late; [|reflexivity|reflexivity|exact Hd]. eauto.
  - erewrite read_expecting_broken; [|reflexivity|reflexivity|exact Hd]. eauto.
Qed.

Lemma read_loop_all r b out idx replies :
  Forall2 answers idx replies ->
  forall rest acc,
  for_fold idx acc read_into (Task (with_channel r (Protocol out (replies ++ rest))) b) =
    (Return (fill acc replies), Task (with_channel r (Protocol out rest)) b).
Proof.
  induction 1 as [|i a idx replies [Hd [v Hv]] _ IH]; intros rest acc.
  - reflexivity.
  - destruct a as [d w]; simpl in Hd, Hv; subst w.
    rewrite for_fold_cons. simpl app.
    rewrite read_into_in_time by exact Hd.
    rewrite bool_decide_eq_false_2 by (intros Hne; apply Hne; reflexivity).
    apply IH.
Qed.

Lemma read_loop_mismatch r b out replies :
  forall idx d k v rest acc,
  Forall2 answers (take (length replies) idx) replies ->
  (length replies < length idx)%nat ->
  idx !! length replies ≠ Some k -> (d < 1)%Q ->
  for_fold idx acc read_into
    (Task (with_channel r (Protocol out (replies ++ Arrival d (Decoded k v) :: rest))) b) =
    (Raise OpenRoverException, Task (with_channel r (Protocol out rest)) b).
Proof.
  induction replies as [|a replies IH]; intros idx d k v rest acc Hall Hlen Hne Hd;
    destruct idx as [|i idx]; simpl in Hlen; try lia.
  - rewrite for_fold_cons. simpl app. rewrite read_into_in_time by exact Hd.
    rewrite bool_decide_eq_true_2; [reflexivity|].
    intros ->. apply Hne. reflexivity.
  - simpl in Hall, Hne. apply Forall2_cons in Hall as [[Ha [va Hva]] Hall].
    destruct a as [da wa]; simpl in Ha, Hva; subst wa.
    rewrite for_fold_cons. simpl app. rewrite read_into_in_time by exact Ha.
    rewrite bool_decide_eq_false_2 by (intros Hn; apply Hn; reflexivity).
    apply IH; [exact Hall | lia | exact Hne | exact Hd].
Qed.

(** The second loop either finds every reply in time and in order, or
    raises. *)
Lemma read_loop_cases r b out idx :
  forall inc acc,
  (exists replies rest, inc = replies ++ rest /\ Forall2 answers idx replies) \/
  (exists e, (for_fold idx acc read_into (Task (with_channel r (Protocol out inc)) b)).1 = Raise e).
Proof.
  induction idx as [|i idx IH]; intros inc acc.
  - left. exists [], inc. split; [reflexivity | constructor].
  - assert (Hstop : forall e,
        (read_into i acc (Task (with_channel r (Protocol out inc)) b)).1 = Raise e ->
        (for_fold (i :: idx) acc read_into
           (Task (with_channel r (Protocol out inc)) b)).1 = Raise e).
    { intros e He. rewrite for_fold_cons.
      destruct (read_into i acc _) as [[m|e'|c|] t']; simpl in He; try discriminate.
      exact He. }
    destruct inc as [|[d w] inc].
    + right. destruct (read_into_other r out b i acc []) as [e He]; [auto|].
      exists e. apply Hstop, He.
    + destruct (Qlt_le_dec d 1) as [Hd|Hd].
      * destruct w as [k v|e].
        -- destruct (decide (k = i)) as [->|Hk].
           ++ destruct (IH inc (<[i := Some v]> acc))
                as [(replies & rest & -> & Hall)|[e He]].
              ** left. exists (Arrival d (Decoded i v) :: replies), rest.
                 split; [reflexivity|]. constructor; [|exact Hall].
                 split; [exact Hd | exists v; reflexivity].
              ** right. exists e. rewrite for_fold_cons.
                 rewrite read_into_in_time by exact Hd.
                 rewrite bool_decide_eq_false_2 by (intros Hn; apply Hn; reflexivity).
                 exact He.
           ++ right. exists OpenRoverException. apply Hstop.
              rewrite read_into_in_time by exact Hd.
              rewrite bool_decide_eq_true_2 by exact Hk. reflexivity.
        -- right.
           destruct (read_into_other r out b i acc (Arrival d (Broken e) :: inc))
             as [e' He]; [right; right; eauto|].
           exists e'. apply Hstop, He.
      * right.
        destruct (read_into_other r out b i acc (Arrival d w :: inc))
          as [e' He]; [right; left; eauto|].
        exists e'. apply Hstop, He.
Qed.

Lemma read_into_reads index acc : stable reads (read_into index acc).
Proof.
  apply stable_bind; [tc_solve | apply read_expecting_reads |].
  intros [k d]. apply stable_ret; tc_solve.
Qed.

Lemma get_data_items_unfold indices t :
  get_data_items indices t =
    let idx := sorted_set indices in
    match for_each idx (fun index => _send_command GET_DATA index) t with
    | (Return _, t1) => for_fold idx (dict_fromkeys idx) read_into t1
    | (Raise e, t1) => (Raise e, t1)
    | (Exit c, t1) => (Exit c, t1)
    | (Blocked, t1) => (Blocked, t1)
    end.
Proof.
  unfold get_data_items, bind. simpl.
  destruct (for_each _ _ t) as [[u|e|c|] t1]; try reflexivity.
  change (for_fold (sorted_set indices) (dict_fromkeys (sorted_set indices)) _ t1)
    with (for_fold (sorted_set indices) (dict_fromkeys (sorted_set indices)) read_into t1).
  destruct (for_fold _ _ read_into t1) as [[m|e|c|] t2]; reflexivity.
Qed.

Lemma get_data_items_connected r p b indices :
  _rover_protocol r = Some p -> motors_ok r ->
  get_data_items indices (Task r b) =
    for_fold (sorted_set indices) (dict_fromkeys (sorted_set indices)) read_into
      (Task (with_channel r
               (Protocol (outgoing p ++ (request r <$> sorted_set indices)) (incoming p)))
            b).
Proof.
  intros Hp Hok. rewrite get_data_items_unfold. simpl.
  replace r with (with_channel r p) at 1
    by (destruct r; simpl in Hp; subst; reflexivity).
  rewrite request_loop by exact Hok. reflexivity.
Qed.

(** C1.  [get_data_items indices] on a connected rover works on the
    distinct indices in ascending order ([idx]): it submits one [GET_DATA]
    frame for each of them in that order, whatever happens afterwards.  When
    the channel then delivers, in time, one reply per index with the keys in
    that order, exactly these replies are consumed and the result is a
    dictionary whose keys are the distinct indices asked for, each with the
    value of its reply.  When a reply in time has another key than the index
    at its position, the call raises [OpenRoverException]; and whenever the
    replies are not all there in time and in order the call raises.  For
    the indices 40, 14, 14, 28 the distinct indices are 14, 28, 40. *)
Theorem get_data_items_batch (r : Rover) (p : OpenRoverProtocol) (b : option Q)
    (indices : list Z) :
  _rover_protocol r = Some p -> motors_ok r ->
  let idx := sorted_set indices in
  let sent := outgoing p ++ (request r <$> idx) in
  let run := get_data_items indices (Task r b) in
  (StronglySorted Z.lt idx /\ forall i, i ∈ idx <-> i ∈ indices) /\
  queued (self run.2) = sent /\
  (forall replies rest,
     incoming p = replies ++ rest -> Forall2 answers idx replies ->
     exists m,
       run = (Return m, Task (with_channel r (Protocol sent rest)) b) /\
       dom m = list_to_set indices /\
       forall (j : nat) i a, idx !! j = Some i -> replies !! j = Some a ->
         exists v, what a = Decoded i v /\ m !! i = Some (Some v)) /\
  (forall replies d k v rest,
     incoming p = replies ++ Arrival d (Decoded k v) :: rest ->
     Forall2 answers (take (length replies) idx) replies ->
     (length replies < length idx)%nat -> idx !! length replies ≠ Some k ->
     (d < 1)%Q ->
     run = (Raise OpenRoverException, Task (with_channel r (Protocol sent rest)) b)) /\
  (forall m, run.1 = Return m ->
     exists replies rest, incoming p = replies ++ rest /\ Forall2 answers idx replies) /\
  ((exists m, run.1 = Return m) \/ (exists e, run.1 = Raise e)) /\
  sorted_set [40; 14; 14; 28] = [14; 28; 40].
Proof.
  intros Hp Hok idx sent run.
  assert (Hrun : run = for_fold idx (dict_fromkeys idx) read_into
                         (Task (with_channel r (Protocol sent (incoming p))) b))
    by (apply get_data_items_connected; assumption).
  split; [split; [apply sorted_set_ascending | apply sorted_set_elem]|].
  split.
  { rewrite Hrun.
    pose proof (stable_for_fold reads idx (dict_fromkeys idx) read_into read_into_reads
                  (Task (with_channel r (Protocol sent (incoming p))) b)) as (_ & Hq & _).
    exact Hq. }
  split.
  { intros replies rest Hin Hall. exists (fill (dict_fromkeys idx) replies).
    split; [|split].
    - rewrite Hrun, Hin. apply read_loop_all, Hall.
    - rewrite (fill_dom idx) by exact Hall. rewrite dict_fromkeys_dom.
      rewrite (idemp_L (∪)). apply sorted_set_same_set.
    - intros j i a Hi Ha.
      eapply fill_lookup; [exact Hall | apply sorted_set_NoDup | exact Hi | exact Ha]. }
  split.
  { intros replies d k v rest Hin Hall Hlen Hne Hd.
    rewrite Hrun, Hin. apply read_loop_mismatch; assumption. }
  split; [|split; [|vm_compute; reflexivity]];
    destruct (read_loop_cases r b sent idx (incoming p) (dict_fromkeys idx))
      as [(replies & rest & Hin & Hall)|[e He]].
  - intros _ _. eauto.
  - intros m Hm. rewrite Hrun, He in Hm. discriminate.
  - left. eexists. rewrite Hrun, Hin, read_loop_all by exact Hall. reflexivity.
  - right. exists e. rewrite Hrun. exact He.
Qed.

(** ** The version probe *)

Lemma write_probe out inc (b : option Q) :
  write_nowait 0 0 0 GET_DATA 40 (Task (Protocol out inc) b) =
    (Return tt, Task (Protocol (out ++ [probe]) inc) b).
Proof. reflexivity. Qed.

Lemma read_one_in_time out d w rest (b : Q) :
  (d < b)%Q ->
  read_one (Task (Protocol out (Arrival d w :: rest)) (Some b)) =
    (deliver (Arrival d w), Task (Protocol out rest) (Some (b - d)%Q)).
Proof.
  intros Hd. apply Qle_bool_false in Hd. unfold read_one. simpl.
  rewrite Hd. reflexivity.
Qed.

Lemma read_one_late out d w rest (b : Q) :
  (b <= d)%Q ->
  read_one (Task (Protocol out (Arrival d w :: rest)) (Some b)) =
    (Raise TooSlowError,
     Task (Protocol out (Arrival (d - b) w :: rest)) (Some 0%Q)).
Proof.
  intros Hd. apply Qle_bool_iff in Hd. unfold read_one. simpl.
  rewrite Hd. reflexivity.
Qed.

(** One turn of the loop of [get_openrover_version]. *)
Lemma version_attempts_S n t :
  version_attempts (S n) t =
    match write_nowait 0 0 0 GET_DATA 40 t with
    | (Return _, t1) =>
        match read_one t1 with
        | (Return (k, version), t2) =>
            if bool_decide (k = 40) then (Return (Some version), t2)
            else version_attempts n t2
        | (Raise e, t2) => (Raise e, t2)
        | (Exit c, t2) => (Exit c, t2)
        | (Blocked, t2) => (Blocked, t2)
        end
    | (Raise e, t1) => (Raise e, t1)
    | (Exit c, t1) => (Exit c, t1)
    | (Blocked, t1) => (Blocked, t1)
    end.
Proof.
  cbn [version_attempts]. unfold bind.
  destruct (write_nowait 0 0 0 GET_DATA 40 t) as [[u|e|c|] t1]; try reflexivity.
  destruct (read_one t1) as [[[k v]|e|c|] t2]; try reflexivity.
  destruct (bool_decide (k = 40)); reflexivity.
Qed.

(** [get_openrover_version] in terms of what the loop gives. *)
Lemma get_openrover_version_unfold wf out inc raw (b : option Q) :
  get_openrover_version (Task (Serial None wf (Protocol out inc) raw) b) =
    match version_attempts 2 (Task (Protocol out inc) (Some 1%Q)) with
    | (Return x, t') => (Return x, Task (Serial None wf (self t') raw) b)
    | (Raise e, t') =>
        (Raise OpenRoverException, Task (Serial None wf (self t') raw) b)
    | (Exit c, t') => (Exit c, Task (Serial None wf (self t') raw) b)
    | (Blocked, t') => (Blocked, Task (Serial None wf (self t') raw) b)
    end.
Proof.
  unfold get_openrover_version, try_except, fail_after, with_protocol. simpl self.
  simpl refuses. simpl line. simpl budget.
  destruct (version_attempts 2 _) as [[x|e|c|] t']; reflexivity.
Qed.

(** C5, what the code does.  On a device that opens,
    [get_openrover_version] writes the request for element 40 and reads a
    reply, twice at most, with one time unit for the whole.  A first reply
    with key 40 in time gives its value, as it is; so does a second one after
    a first reply with another key.  A refusal of the device, a reply that
    does not come in time or a failure of the channel raises
    [OpenRoverException].  But after two replies in time with keys other
    than 40 the loop ends and the function returns [None]: no exception is
    raised although no version arrived. *)
Theorem get_openrover_version_cases wf out raw (b : option Q) :
  (forall d1 v rest, (d1 < 1)%Q ->
     get_openrover_version
       (Task (Serial None wf (Protocol out (Arrival d1 (Decoded 40 v) :: rest)) raw) b) =
     (Return (Some v), Task (Serial None wf (Protocol (out ++ [probe]) rest) raw) b)) /\
  (forall d1 k1 v1 d2 v rest, k1 <> 40 -> (0 <= d2)%Q -> (d1 + d2 < 1)%Q ->
     get_openrover_version
       (Task (Serial None wf
                (Protocol out
                   (Arrival d1 (Decoded k1 v1) :: Arrival d2 (Decoded 40 v) :: rest))
                raw) b) =
     (Return (Some v),
      Task (Serial None wf (Protocol (out ++ [probe; probe]) rest) raw) b)) /\
  (forall d1 k1 v1 d2 k2 v2 rest,
     k1 <> 40 -> k2 <> 40 -> (0 <= d2)%Q -> (d1 + d2 < 1)%Q ->
     get_openrover_version
       (Task (Serial None wf
                (Protocol out
                   (Arrival d1 (Decoded k1 v1) :: Arrival d2 (Decoded k2 v2) :: rest))
                raw) b) =
     (Return None,
      Task (Serial None wf (Protocol (out ++ [probe; probe]) rest) raw) b)) /\
  (forall e inc,
     (get_openrover_version (Task (Serial (Some e) wf (Protocol out inc) raw) b)).1 =
     Raise OpenRoverException) /\
  (get_openrover_version (Task (Serial None wf (Protocol out []) raw) b)).1 =
     Raise OpenRoverException /\
  (forall d1 w rest, (1 <= d1)%Q ->
     (get_openrover_version
        (Task (Serial None wf (Protocol out (Arrival d1 w :: rest)) raw) b)).1 =
     Raise OpenRoverException) /\
  (forall d1 k1 v1 d2 w rest, k1 <> 40 -> (d1 < 1)%Q -> (1 <= d1 + d2)%Q ->
     (get_openrover_version
        (Task (Serial None wf
                 (Protocol out (Arrival d1 (Decoded k1 v1) :: Arrival d2 w :: rest))
                 raw) b)).1 =
     Raise OpenRoverException) /\
  (forall d1 e rest, (d1 < 1)%Q ->
     (get_openrover_version
        (Task (Serial None wf (Protocol out (Arrival d1 (Broken e) :: rest)) raw) b)).1 =
     Raise OpenRoverException).
Proof.
  split_and!.
  - intros d1 v rest Hd. rewrite get_openrover_version_unfold, version_attempts_S.
    rewrite write_probe, read_one_in_time by exact Hd. unfold deliver. simpl.
    reflexivity.
  - intros d1 k1 v1 d2 v rest Hk1 H2 Hd.
    rewrite get_openrover_version_unfold, version_attempts_S.
    rewrite write_probe, read_one_in_time by lra. unfold deliver. simpl what.
    cbv iota beta. rewrite bool_decide_eq_false_2 by exact Hk1.
    rewrite version_attempts_S, write_probe, read_one_in_time by lra.
    unfold deliver. simpl. rewrite <- app_assoc. reflexivity.
  - intros d1 k1 v1 d2 k2 v2 rest Hk1 Hk2 H2 Hd.
    rewrite get_openrover_version_unfold, version_attempts_S.
    rewrite write_probe, read_one_in_time by lra. unfold deliver. simpl what.
    cbv iota beta. rewrite bool_decide_eq_false_2 by exact Hk1.
    rewrite version_attempts_S, write_probe, read_one_in_time by lra.
    unfold deliver. simpl what. cbv iota beta.
    rewrite bool_decide_eq_false_2 by exact Hk2.
    simpl. rewrite <- app_assoc. reflexivity.
  - intros e inc.
    unfold get_openrover_version, try_except, fail_after, with_protocol. simpl.
    reflexivity.
  - rewrite get_openrover_version_unfold, version_attempts_S, write_probe.
    reflexivity.
  - intros d1 w rest Hd.
    rewrite get_openrover_version_unfold, version_attempts_S, write_probe.
    rewrite read_one_late by exact Hd. reflexivity.
  - intros d1 k1 v1 d2 w rest Hk1 Hd1 Hd.
    rewrite get_openrover_version_unfold, version_attempts_S.
    rewrite write_probe, read_one_in_time by exact Hd1. unfold deliver. simpl what.
    cbv iota beta. rewrite bool_decide_eq_false_2 by exact Hk1.
    rewrite version_attempts_S, write_probe, read_one_late by lra. reflexivity.
  - intros d1 e rest Hd.
    rewrite get_openrover_version_unfold, version_attempts_S.
    rewrite write_probe, read_one_in_time by exact Hd. unfold deliver. simpl.
    reflexivity.
Qed.

(** ** The settings argument *)

Lemma cut_Some s : forall a b,
  cut s = Some (a, b) -> s = (a +:+ String ":" b) /\ cut a = None.
Proof.
  induction s as [|c s IH]; intros a b Hcut; simpl in Hcut; [discriminate|].
  destruct (Ascii.eqb c ":") eqn:Hc.
  - apply Ascii.eqb_eq in Hc. inversion Hcut; subst. split; reflexivity.
  - destruct (cut s) as [[a' b']|] eqn:Hs; [|discriminate].
    inversion Hcut; subst. destruct (IH a' b eq_refl) as [-> Ha'].
    split; [reflexivity|]. simpl. rewrite Hc, Ha'. reflexivity.
Qed.

Lemma cut_app a : forall b, cut a = None -> cut (a +:+ String ":" b) = Some (a, b).
Proof.
  induction a as [|c a IH]; intros b Hcut; simpl in *; [reflexivity|].
  destruct (Ascii.eqb c ":"); [discriminate|].
  destruct (cut a) as [[? ?]|]; [discriminate|].
  rewrite IH by reflexivity. reflexivity.
Qed.

Lemma cut_None s : cut s = None <-> colon_free s.
Proof.
  split.
  - intros Hcut a. revert s Hcut.
    induction a as [|c a IH]; intros s Hcut b ->; simpl in Hcut; [discriminate|].
    destruct (Ascii.eqb c ":"); [discriminate|].
    destruct (cut (a +:+ String ":" b)) as [[? ?]|] eqn:E; [discriminate|].
    exact (IH _ E b eq_refl).
  - intros Hfree. destruct (cut s) as [[a b]|] eqn:E; [|reflexivity].
    apply cut_Some in E as [-> _]. exfalso. exact (Hfree a b eq_refl).
Qed.

(** [arg.split(':', 2)] has two parts exactly for one colon. *)
Lemma unpack2_split (arg k v : string) :
  unpack2 (split 2 arg) = Return (k, v) <->
  arg = (k +:+ String ":" v) /\ colon_free k /\ colon_free v.
Proof.
  rewrite <- !cut_None. simpl. split.
  - destruct (cut arg) as [[a b]|] eqn:Ha; [|discriminate].
    destruct (cut b) as [[c d]|] eqn:Hb; [discriminate|].
    simpl. intros H. inversion H; subst.
    apply cut_Some in Ha as [-> Hk]. auto.
  - intros (-> & Hk & Hv). rewrite cut_app by exact Hk. rewrite Hv. reflexivity.
Qed.

Lemma unpack2_cases (parts : list string) :
  unpack2 parts = Raise ValueError \/ exists k v, unpack2 parts = Return (k, v).
Proof.
  destruct parts as [|k [|v [|? ?]]]; simpl; eauto.
Qed.

Lemma settings_verbs_range (k : Z) : k ∈ SETTINGS_VERBS <-> 3 <= k <= 8.
Proof.
  unfold SETTINGS_VERBS. rewrite !elem_of_cons, elem_of_nil. lia.
Qed.

Lemma rover_command_arg_pair_parts arg k v :
  unpack2 (split 2 arg) = Return (k, v) ->
  rover_command_arg_pair arg = pair_of_parts k v.
Proof.
  intros Hparts. unfold rover_command_arg_pair, pair_of_parts. rewrite Hparts.
  unfold obind, int, CommandVerbs.
  destruct (int_of_str k) as [n|]; [|reflexivity].
  destruct (is_CommandVerb n) eqn:Hn; [|destruct (int_of_str v); reflexivity].
  destruct (decide (n ∈ SETTINGS_VERBS)) as [Hin|Hin].
  - rewrite bool_decide_eq_true_2 by exact Hin. simpl negb. cbv iota.
    apply settings_verbs_range in Hin.
    destruct (int_of_str v) as [vn|]; [|reflexivity].
    replace (3 <=? n) with true by lia. replace (n <=? 8) with true by lia.
    simpl andb. destruct ((0 <=? vn) && (vn <=? 255)); simpl; [|reflexivity].
    rewrite Hn. reflexivity.
  - rewrite bool_decide_eq_false_2 by exact Hin. simpl negb. cbv iota.
    rewrite settings_verbs_range in Hin.
    destruct (int_of_str v) as [vn|]; [|reflexivity].
    simpl andb.
    destruct (3 <=? n) eqn:E3; [|reflexivity].
    destruct (n <=? 8) eqn:E8; [|reflexivity].
    exfalso. apply Hin. lia.
Qed.

(** C6.  [rover_command_arg_pair] returns a pair exactly for a string
    [k:v] with one colon whose first part parses to the value of a command
    verb in 3..8 and whose second part parses to an integer in 0..255; the
    pair is that verb and that integer.  On every other string it raises
    [ValueError]. *)
Theorem rover_command_arg_pair_accepts (arg : string) :
  (forall n vn,
     rover_command_arg_pair arg = Return (n, vn) <->
     exists k v,
       arg = (k +:+ String ":" v) /\ colon_free k /\ colon_free v /\
       int_of_str k = Some n /\ is_CommandVerb n = true /\ 3 <= n <= 8 /\
       int_of_str v = Some vn /\ 0 <= vn <= 255) /\
  ((exists n vn, rover_command_arg_pair arg = Return (n, vn)) \/
   rover_command_arg_pair arg = Raise ValueError).
Proof.
  destruct (unpack2_cases (split 2 arg)) as [Hbad|(k & v & Hparts)].
  - assert (Hrun : rover_command_arg_pair arg = Raise ValueError)
      by (unfold rover_command_arg_pair; rewrite Hbad; reflexivity).
    split; [|right; exact Hrun].
    intros n vn. rewrite Hrun. split; [discriminate|].
    intros (k & v & Harg & Hk & Hv & _).
    assert (Hparts : unpack2 (split 2 arg) = Return (k, v))
      by (apply unpack2_split; auto).
    congruence.
  - rewrite (rover_command_arg_pair_parts arg k v Hparts).
    apply unpack2_split in Hparts as (Harg & Hk & Hv).
    unfold pair_of_parts.
    split.
    + intros n vn. split.
      * destruct (int_of_str k) as [n'|] eqn:Ek; [|discriminate].
        destruct (int_of_str v) as [vn'|] eqn:Ev; [|discriminate].
        destruct (is_CommandVerb n' && (3 <=? n') && (n' <=? 8) && (0 <=? vn')
                  && (vn' <=? 255)) eqn:Eok; [|discriminate].
        intros H. inversion H; subst n' vn'.
        rewrite !andb_true_iff in Eok. destruct Eok as [[[[Hn H3] H8] H0] H255].
        exists k, v. repeat split; auto; lia.
      * intros (k' & v' & Harg' & Hk' & Hv' & Ek & Hn & Hr & Ev & Hvr).
        assert (unpack2 (split 2 arg) = Return (k', v')) as E'
          by (apply unpack2_split; auto).
        assert (unpack2 (split 2 arg) = Return (k, v)) as E
          by (apply unpack2_split; auto).
        rewrite E in E'. inversion E'; subst k' v'.
        rewrite Ek, Ev, Hn.
        replace (3 <=? n) with true by lia. replace (n <=? 8) with true by lia.
        replace (0 <=? vn) with true by lia. replace (vn <=? 255) with true by lia.
        reflexivity.
    + destruct (int_of_str k) as [n'|]; [|right; reflexivity].
      destruct (int_of_str v) as [vn'|]; [|right; reflexivity].
      destruct (is_CommandVerb n' && (3 <=? n') && (n' <=? 8) && (0 <=? vn')
                && (vn' <=? 255)); [left; eauto | right; reflexivity].
Qed.

(** ** The exit status of pitstop *)

Lemma dev_same_refl keep d : dev_same keep d d.
Proof. repeat split. Qed.

Lemma host_same_refl keep p h : host_same keep p h h.
Proof.
  repeat split. destruct (serial h !! p); [apply dev_same_refl | exact I].
Qed.

Lemma host_same_trans keep p h1 h2 h3 :
  host_same keep p h1 h2 -> host_same keep p h2 h3 -> host_same keep p h1 h3.
Proof. sweep.
  intros (Ha & Hb & Hc & Hd) (Ha' & Hb' & Hc' & Hd').
  repeat split; try congruence.
  destruct (serial h1 !! p), (serial h2 !! p), (serial h3 !! p); try tauto.
  destruct Hd as (? & ? & ?), Hd' as (? & ? & ?).
  repeat split; try congruence. intros Hk. rewrite H4, H1 by exact Hk. reflexivity.
Qed.

Lemma host_same_weaken p h h' : host_same true p h h' -> host_same false p h h'.
Proof. sweep.
  intros (Ha & Hb & Hc & Hd). repeat split; try assumption.
  destruct (serial h !! p), (serial h' !! p); try tauto.
  destruct Hd as (? & ? & ?). repeat split; try assumption. discriminate.
Qed.

Lemma on_serial_Some {A} h p d b (m : M SerialTrio A) :
  serial h !! p = Some d ->
  on_serial p m (Task h b) =
    ((m (Task d b)).1,
     Task (MkHost (ftdi_device_paths h) (files h)
                  (<[p := self (m (Task d b)).2]> (serial h)) (booty h))
          (budget (m (Task d b)).2)).
Proof.
  intros Hd. unfold on_serial. simpl. rewrite Hd.
  destruct (m (Task d b)) as [x t']. reflexivity.
Qed.

Lemma on_serial_None {A} h p b (m : M SerialTrio A) :
  serial h !! p = None -> on_serial p m (Task h b) = (Raise OSError, Task h b).
Proof. intros Hd. unfold on_serial. simpl. rewrite Hd. reflexivity. Qed.

Lemma on_serial_same {A} keep h p d b (m : M SerialTrio A) :
  serial h !! p = Some d ->
  dev_same keep d (self (m (Task d b)).2) ->
  host_same keep p h (self (on_serial p m (Task h b)).2).
Proof.
  intros Hd Hsame. rewrite (on_serial_Some h p d b m Hd).
  unfold host_same. cbn [snd self ftdi_device_paths files booty serial].
  split_and!; try reflexivity. rewrite Hd, lookup_insert_eq. exact Hsame.
Qed.

(** The writes of [amain] carry the motor triple (0, 0, 0) and are
    accepted. *)
Lemma write_zero cmd a out inc (b : option Q) :
  write_nowait 0 0 0 cmd a (Task (Protocol out inc) b) =
    (Return tt, Task (Protocol (out ++ [Frame 0 0 0 cmd a]) inc) b).
Proof. reflexivity. Qed.

Lemma write_settings (l : list (Z * Z)) : forall out inc (b : option Q),
  for_each l (fun '(k, v) => write_nowait 0 0 0 k v) (Task (Protocol out inc) b) =
    (Return tt,
     Task (Protocol (out ++ ((fun '(k, v) => Frame 0 0 0 k v) <$> l)) inc) b).
Proof.
  induction l as [|[k v] l IH]; intros out inc b.
  - simpl. unfold ret. rewrite app_nil_r. reflexivity.
  - cbn [for_each]. unfold bind. rewrite write_zero, IH.
    simpl. rewrite <- app_assoc. reflexivity.
Qed.

Lemma restart_block_spec d b :
  dev_same true d (self (restart_block (Task d b)).2) /\
  match refuses d, write_fails d with
  | None, None => (restart_block (Task d b)).1 = Return tt
  | _, _ => exists e, (restart_block (Task d b)).1 = Raise e
  end.
Proof.
  destruct d as [[e|] [e'|] [out inc] raw]; unfold restart_block, bind, get, with_protocol;
    simpl; unfold flush, bind; simpl; (split; [repeat split|]); eauto.
Qed.

Lemma wake_block_spec d b data :
  dev_same true d (self (with_serial_write data (Task d b)).2) /\
  match refuses d with
  | None => (with_serial_write data (Task d b)).1 = Return tt
  | Some _ => exists e, (with_serial_write data (Task d b)).1 = Raise e
  end.
Proof.
  destruct d as [[e|] wf ln raw]; unfold with_serial_write; simpl;
    (split; [repeat split|]); eauto.
Qed.

Lemma with_protocol_open {A} wf ln raw b (body : M OpenRoverProtocol A) :
  with_protocol body (Task (Serial None wf ln raw) b) =
    ((body (Task ln b)).1,
     Task (Serial None wf (self (body (Task ln b)).2) raw) (budget (body (Task ln b)).2)).
Proof.
  unfold with_protocol. cbn [self refuses line budget write_fails raw_written].
  destruct (body (Task ln b)) as [x t']. reflexivity.
Qed.

Lemma settings_body l wf out inc raw (b : option Q) :
  (let* _ := write_nowait 0 0 0 RELOAD_SETTINGS 0 in
   let* _ := for_each l (fun '(k, v) => write_nowait 0 0 0 k v) in
   let* _ := write_nowait 0 0 0 COMMIT_SETTINGS 0 in
   flush (Serial None wf (Protocol out inc) raw)) (Task (Protocol out inc) b) =
  (match wf with Some e => Raise e | None => Return tt end,
   Task (Protocol
           (((out ++ [Frame 0 0 0 RELOAD_SETTINGS 0]) ++
             ((fun '(k, v) => Frame 0 0 0 k v) <$> l)) ++
            [Frame 0 0 0 COMMIT_SETTINGS 0]) inc) b).
Proof.
  unfold bind. rewrite write_zero, write_settings, write_zero.
  destruct wf; reflexivity.
Qed.

Lemma settings_block_open l wf out inc raw (b : option Q) :
  settings_block l (Task (Serial None wf (Protocol out inc) raw) b) =
    (match wf with Some e => Raise e | None => Return tt end,
     Task (Serial None wf
             (Protocol
                (((out ++ [Frame 0 0 0 RELOAD_SETTINGS 0]) ++
                  ((fun '(k, v) => Frame 0 0 0 k v) <$> l)) ++
                 [Frame 0 0 0 COMMIT_SETTINGS 0]) inc) raw) b).
Proof.
  unfold settings_block, bind at 1, get. cbn [self].
  rewrite with_protocol_open, settings_body. reflexivity.
Qed.

Lemma settings_block_spec l d b :
  dev_same true d (self (settings_block l (Task d b)).2) /\
  match refuses d, write_fails d with
  | None, None => (settings_block l (Task d b)).1 = Return tt
  | _, _ => exists e, (settings_block l (Task d b)).1 = Raise e
  end.
Proof.
  destruct d as [[e|] wf [out inc] raw].
  - split; [repeat split|]. destruct wf; eexists; reflexivity.
  - rewrite settings_block_open. cbn [self refuses fst snd write_fails line incoming].
    split; [repeat split|]. destruct wf; eauto.
Qed.

Lemma version_request_open out inc (b : option Q) :
  version_request (Task (Protocol out inc) b) =
    let r := read_one (Task (Protocol (out ++ [probe]) inc) (Some 10%Q)) in
    (match r.1 with
     | Return (k, v) => Return (if bool_decide (k = 40) then Some v else None)
     | Raise e => Raise e
     | Exit c => Exit c
     | Blocked => Blocked
     end,
     Task (self r.2) b).
Proof.
  unfold version_request, bind at 1. rewrite write_zero. fold probe.
  unfold bind, fail_after. cbn [self budget].
  destruct (read_one _) as [[[k v]|e|c|] t']; reflexivity.
Qed.

Lemma version_block_open wf out inc raw (b : option Q) :
  version_block (Task (Serial None wf (Protocol out inc) raw) b) =
    let r := read_one (Task (Protocol (out ++ [probe]) inc) (Some 10%Q)) in
    (match r.1 with
     | Return (k, v) => Return (if bool_decide (k = 40) then Some v else None)
     | Raise e => Raise e
     | Exit c => Exit c
     | Blocked => Blocked
     end,
     Task (Serial None wf (self r.2) raw) b).
Proof.
  unfold version_block. rewrite with_protocol_open, version_request_open.
  reflexivity.
Qed.

Lemma version_block_in_time wf out dl w inc raw (b : option Q) :
  (dl < 10)%Q ->
  version_block (Task (Serial None wf (Protocol out (Arrival dl w :: inc)) raw) b) =
    (match w with
     | Decoded k v => Return (if bool_decide (k = 40) then Some v else None)
     | Broken e => Raise e
     end,
     Task (Serial None wf (Protocol (out ++ [probe]) inc) raw) b).
Proof.
  intros Hd. rewrite version_block_open. cbv zeta.
  rewrite read_one_in_time by exact Hd. unfold deliver. cbn [fst snd self what].
  destruct w; reflexivity.
Qed.

Lemma version_block_late wf out dl w inc raw (b : option Q) :
  (10 <= dl)%Q ->
  (version_block (Task (Serial None wf (Protocol out (Arrival dl w :: inc)) raw) b)).1 =
    Raise TooSlowError.
Proof.
  intros Hd. rewrite version_block_open. cbv zeta.
  rewrite read_one_late by exact Hd. reflexivity.
Qed.

Lemma version_block_silence wf out raw (b : option Q) :
  (version_block (Task (Serial None wf (Protocol out []) raw) b)).1 =
    Raise TooSlowError.
Proof. rewrite version_block_open. reflexivity. Qed.

Lemma version_block_same d b : dev_same false d (self (version_block (Task d b)).2).
Proof.
  destruct d as [[e|] wf [out inc] raw].
  - split_and!; try reflexivity; discriminate.
  - rewrite version_block_open. split_and!; try reflexivity; discriminate.
Qed.

Lemma version_block_spec d b :
  let r := version_block (Task d b) in
  ((exists x, r.1 = Return x) \/ (exists e, r.1 = Raise e)) /\
  (refuses d = None -> forall v, version_reply (incoming (line d)) v ->
     r.1 = Return (Some v)) /\
  (no_version_reply (incoming (line d)) ->
     r.1 = Return None \/ exists e, r.1 = Raise e).
Proof.
  destruct d as [[e|] wf [out inc] raw]; cbn [refuses line incoming]; cbv zeta.
  { split; [right; eexists; reflexivity|].
    split; [discriminate | right; eexists; reflexivity]. }
  destruct inc as [|[dl w] inc].
  { rewrite version_block_silence. split; [eauto|]. split; [|eauto].
    intros _ v (dl & rest & Hin & _). discriminate. }
  destruct (Qlt_le_dec dl 10) as [Hd|Hd].
  - rewrite version_block_in_time by exact Hd. cbn [fst].
    destruct w as [k v|e].
    + split; [eauto|]. split.
      * intros _ v' (dl' & rest & Hin & _). inversion Hin; subst.
        rewrite bool_decide_eq_true_2 by reflexivity. reflexivity.
      * intros [Hnil|(dl' & w' & rest & Hin & Hcase)]; [discriminate|].
        inversion Hin; subst.
        destruct Hcase as [Hlate|[[e He]|(k' & v' & Hw & Hk)]].
        -- exfalso. exact (Qlt_not_le _ _ Hd Hlate).
        -- discriminate.
        -- inversion Hw; subst. rewrite bool_decide_eq_false_2 by exact Hk. auto.
    + split; [eauto|]. split; [|eauto].
      intros _ v (dl' & rest & Hin & _). discriminate.
  - rewrite version_block_late by exact Hd.
    split; [eauto|]. split; [|eauto].
    intros _ v (dl' & rest & Hin & Hlt). inversion Hin; subst.
    exfalso. exact (Qlt_not_le _ _ Hlt Hd).
Qed.

Lemma bind_run {S A B} (m : M S A) (k : A -> M S B) (t : task S) :
  bind m k t =
    match (m t).1 with
    | Return a => k a (m t).2
    | Raise e => (Raise e, (m t).2)
    | Exit c => (Exit c, (m t).2)
    | Blocked => (Blocked, (m t).2)
    end.
Proof. unfold bind. destruct (m t) as [[a|e|c|] t']; reflexivity. Qed.

Lemma status_1_not_return {A} (o : outcome A) :
  exit_status o = Some 1 -> (exists e, o = Raise e) \/ o = Exit 1.
Proof.
  destruct o as [a|e|c|]; simpl; intros H; try discriminate; [eauto|].
  inversion H. auto.
Qed.

Lemma bind_status_1 {S A B} (m : M S A) (k : A -> M S B) (t : task S) :
  exit_status (m t).1 = Some 1 -> exit_status (bind m k t).1 = Some 1.
Proof.
  intros H. rewrite bind_run.
  destruct (status_1_not_return _ H) as [[e ->]| ->]; reflexivity.
Qed.

Lemma device_ready_same keep p h h' :
  host_same keep p h h' -> device_ready p h -> device_ready p h'.
Proof.
  intros (_ & _ & _ & Hd) (d & Hp & Hr & Hw). rewrite Hp in Hd.
  destruct (serial h' !! p) as [d'|] eqn:Hp'; [|contradiction].
  destruct Hd as (Hr' & Hw' & _). exists d'. repeat split; congruence.
Qed.

(** A unit block on the device, as a step of [amain]. *)
Lemma on_serial_step keep p (m : M SerialTrio unit) h b :
  (forall d b,
     dev_same keep d (self (m (Task d b)).2) /\
     ((m (Task d b)).1 = Return tt \/ exists e, (m (Task d b)).1 = Raise e) /\
     (refuses d = None -> write_fails d = None -> (m (Task d b)).1 = Return tt)) ->
  carries_on keep p (Task h b) (on_serial p m (Task h b)) /\
  (device_ready p h -> (on_serial p m (Task h b)).1 = Return tt).
Proof.
  intros Hm. destruct (serial h !! p) as [d|] eqn:Hd.
  - destruct (Hm d b) as (Hsame & Hcases & Hgood). split.
    + destruct Hcases as [Hret|[e He]].
      * left. split.
        -- rewrite (on_serial_Some h p d b m Hd). exact Hret.
        -- apply (on_serial_same keep h p d b m Hd Hsame).
      * right. rewrite (on_serial_Some h p d b m Hd). cbn [fst]. rewrite He.
        reflexivity.
    + intros (d' & Hd' & Hr & Hw). rewrite Hd in Hd'. inversion Hd'; subst d'.
      rewrite (on_serial_Some h p d b m Hd). cbn [fst]. auto.
  - rewrite on_serial_None by exact Hd. split; [right; reflexivity|].
    intros (d' & Hd' & _). congruence.
Qed.

Lemma restart_step p h b :
  carries_on true p (Task h b) (on_serial p restart_block (Task h b)) /\
  (device_ready p h -> (on_serial p restart_block (Task h b)).1 = Return tt).
Proof.
  apply on_serial_step. intros d b'.
  destruct (restart_block_spec d b') as [Hsame Hcase]. split; [exact Hsame|].
  destruct (refuses d), (write_fails d); split; auto; congruence.
Qed.

Lemma wake_step p data h b :
  carries_on true p (Task h b) (on_serial p (with_serial_write data) (Task h b)) /\
  (device_ready p h -> (on_serial p (with_serial_write data) (Task h b)).1 = Return tt).
Proof.
  apply on_serial_step. intros d b'.
  destruct (wake_block_spec d b' data) as [Hsame Hcase]. split; [exact Hsame|].
  destruct (refuses d); split; auto; congruence.
Qed.

Lemma settings_step p l h b :
  carries_on true p (Task h b) (on_serial p (settings_block l) (Task h b)) /\
  (device_ready p h -> (on_serial p (settings_block l) (Task h b)).1 = Return tt).
Proof.
  apply on_serial_step. intros d b'.
  destruct (settings_block_spec l d b') as [Hsame Hcase]. split; [exact Hsame|].
  destruct (refuses d), (write_fails d); split; auto; congruence.
Qed.

(** Two steps in a row. *)
Lemma carries_on_then keep p (m : M Host unit) (k : unit -> M Host unit) t :
  carries_on keep p t (m t) ->
  carries_on keep p (m t).2 (k tt (m t).2) ->
  carries_on keep p t (bind m k t).
Proof.
  intros [[Hret Hsame]|Hfail] Hk.
  - rewrite bind_run, Hret. destruct Hk as [[Hret' Hsame']|Hfail'].
    + left. split; [exact Hret' | eapply host_same_trans; eassumption].
    + right. exact Hfail'.
  - right. apply bind_status_1, Hfail.
Qed.

Lemma returns_then (m : M Host unit) (k : unit -> M Host unit) t :
  (m t).1 = Return tt -> (k tt (m t).2).1 = Return tt -> (bind m k t).1 = Return tt.
Proof. intros Hm Hk. rewrite bind_run, Hm. exact Hk. Qed.

Lemma carries_on_returned keep p t (r : outcome unit * task Host) :
  carries_on keep p t r -> r.1 = Return tt -> host_same keep p (self t) (self r.2).
Proof.
  intros [[_ H]|H] Hret; [exact H|]. rewrite Hret in H. discriminate.
Qed.

Lemma check_call_booty_step p f h b :
  check_call_booty p f (Task h b) =
    (if bool_decide (booty h p f = 0) then Return tt else Raise CalledProcessError,
     Task h b).
Proof.
  unfold check_call_booty, bind, get. cbn [self].
  destruct (bool_decide (booty h p f = 0)); reflexivity.
Qed.

(** The firmware step. *)
Lemma flash_firmware_spec p args h b :
  let r := flash_firmware p args (Task h b) in
  carries_on true p (Task h b) r /\
  (flash_ok p args h -> r.1 = Return tt) /\
  (forall f, flash args = Some f -> files h f = false -> r.1 = Exit 1).
Proof.
  unfold flash_firmware. destruct (flash args) as [f|] eqn:Hflash; cbv zeta.
  2:{ split; [left; split; [reflexivity | apply host_same_refl]|].
      split; [reflexivity | discriminate]. }
  change (bind get ?k (Task h b)) with (k h (Task h b)). cbv beta.
  destruct (files h f) eqn:Hf; cbn [negb].
  2:{ split; [right; reflexivity|]. split; [|reflexivity].
      intros Hok. destruct (Hok f Hflash) as [Hfile _]. congruence. }
  change (bind (ret tt) ?k (Task h b)) with (k tt (Task h b)). cbv beta.
  destruct (restart_step p h b) as [Hc1 Hr1].
  set (t1 := (on_serial p restart_block (Task h b)).2) in *.
  assert (Hc2 : carries_on true p t1
            (bind (check_call_booty p f)
                  (fun _ => on_serial p (with_serial_write "f701004041437f")) t1)).
  { destruct t1 as [h1 b1]. rewrite bind_run, check_call_booty_step. cbn [fst snd].
    destruct (bool_decide (booty h1 p f = 0)); [|right; reflexivity].
    apply wake_step. }
  split; [apply carries_on_then; assumption|].
  split; [|intros f' Hf' Hno; inversion Hf'; subst; congruence].
  intros Hok. destruct (Hok f Hflash) as (_ & Hdev & Hbooty).
  apply returns_then; [apply Hr1, Hdev|].
  pose proof (carries_on_returned _ _ _ _ Hc1 (Hr1 Hdev)) as Hsame.
  fold t1 in Hsame |- *. clearbody t1.
  destruct t1 as [h1 b1]. cbn [self] in Hsame.
  rewrite bind_run, check_call_booty_step. cbn [fst snd].
  destruct Hsame as (Hpaths & Hfiles & Hb & Hdevs).
  rewrite bool_decide_eq_true_2 by (rewrite Hb; exact Hbooty).
  apply wake_step. eapply device_ready_same; [|exact Hdev].
  repeat split; eassumption.
Qed.

Lemma version_block_refused d b e :
  refuses d = Some e -> (version_block (Task d b)).1 = Raise e.
Proof.
  intros Hr. unfold version_block, with_protocol. cbn [self]. rewrite Hr.
  reflexivity.
Qed.

(** The version step. *)
Lemma check_version_spec p args h b :
  let r := check_version p args (Task h b) in
  carries_on false p (Task h b) r /\
  (version_ok p args h -> r.1 = Return tt) /\
  (forall m d, minimumversion args = Some m -> serial h !! p = Some d ->
     no_version_reply (incoming (line d)) \/
     (exists dl v rest, incoming (line d) = Arrival dl (Decoded 40 v) :: rest /\
                        version_lt v m = Some true) ->
     exit_status r.1 = Some 1).
Proof.
  unfold check_version. destruct (minimumversion args) as [m|] eqn:Hmin; cbv zeta.
  2:{ split; [left; split; [reflexivity | apply host_same_refl]|].
      split; [reflexivity | discriminate]. }
  rewrite bind_run.
  destruct (serial h !! p) as [d|] eqn:Hd.
  2:{ rewrite on_serial_None by exact Hd. cbn [fst snd].
      split; [right; reflexivity|]. split.
      - intros Hok. destruct (Hok m Hmin) as (d & v & Hd' & _). congruence.
      - intros m' d' _ Hd'. discriminate. }
  rewrite (on_serial_Some h p d b version_block Hd). cbn [fst snd].
  pose proof (on_serial_same false h p d b version_block Hd (version_block_same d b))
    as Hsame.
  rewrite (on_serial_Some h p d b version_block Hd) in Hsame. cbn [snd] in Hsame.
  destruct (version_block_spec d b) as (Hcases & Hgood & Hbad).
  pose proof (version_block_refused d b) as Hrefused.
  destruct (version_block (Task d b)) as [o t1]. cbn [fst snd] in *.
  split; [|split].
  - destruct Hcases as [[[v|] ->]|[e ->]]; [|right; reflexivity..].
    destruct (version_lt v m) as [[|]|]; [right; reflexivity| |right; reflexivity].
    left. split; [reflexivity | exact Hsame].
  - intros Hok. destruct (Hok m Hmin) as (d' & v & Hd' & Hopen & Hreply & Hlt).
    rewrite Hd in Hd'. inversion Hd'; subst d'.
    rewrite (Hgood Hopen v Hreply), Hlt. reflexivity.
  - intros m' d' Hm' Hd' Hcase. inversion Hm'; inversion Hd'; subst m' d'.
    destruct Hcase as [Hno|(dl & v & rest & Hin & Hlt)].
    + destruct (Hbad Hno) as [-> | [e ->]]; reflexivity.
    + destruct Hcases as [[[v'|] Ho]|[e ->]]; [|rewrite Ho; reflexivity|reflexivity].
      rewrite Ho.
      destruct (refuses d) as [e|] eqn:Hopen.
      * exfalso. rewrite (Hrefused e eq_refl) in Ho. discriminate.
      * destruct (Qlt_le_dec dl 10) as [Hdl|Hdl].
        -- assert (Hv : o = Return (Some v))
             by (apply Hgood; [reflexivity | exists dl, rest; auto]).
           rewrite Ho in Hv. inversion Hv; subst v'. rewrite Hlt. reflexivity.
        -- exfalso. destruct Hbad as [Hn|[e He]]; [|congruence|congruence].
           right. exists dl, (Decoded 40 v), rest. auto.
Qed.

(** The settings step. *)
Lemma update_settings_spec p args h b :
  let r := update_settings p args (Task h b) in
  carries_on true p (Task h b) r /\ (settings_ok p args h -> r.1 = Return tt).
Proof.
  unfold update_settings, settings_ok.
  destruct (truthy_list (updatesettings args)); cbv zeta.
  - destruct (settings_step p (default [] (updatesettings args)) h b) as [Hc Hr].
    split; [exact Hc | auto].
  - split; [left; split; [reflexivity | apply host_same_refl] | reflexivity].
Qed.

Lemma carries_on_weaken p t r : carries_on true p t r -> carries_on false p t r.
Proof.
  intros [[Hret Hsame]|Hfail]; [left|right; exact Hfail].
  split; [exact Hret | apply host_same_weaken, Hsame].
Qed.

(** [amain] through its steps, once the device is chosen. *)
Lemma amain_with_port args h b p :
  action_requested args = true -> chosen_port args h = Some p ->
  amain args (Task h b) =
    (let* _ := flash_firmware p args in
     let* _ := check_version p args in
     let* _ := update_settings p args in
     exit 0) (Task h b).
Proof.
  unfold action_requested, chosen_port. intros Hact Hport.
  unfold amain, require_action. rewrite Hact. cbn [negb].
  change (bind (ret tt) ?k (Task h b)) with (k tt (Task h b)). cbv beta.
  rewrite bind_run. unfold choose_port.
  destruct (port args) as [p'|].
  - inversion Hport; subst. reflexivity.
  - change (bind get ?k (Task h b)) with (k h (Task h b)). cbv beta.
    destruct (ftdi_device_paths h) as [|p' ps]; [discriminate|].
    inversion Hport; subst. reflexivity.
Qed.

Lemma amain_without_port args h b :
  action_requested args = true -> chosen_port args h = None ->
  (amain args (Task h b)).1 = Exit 1.
Proof.
  unfold action_requested, chosen_port. intros Hact Hport.
  unfold amain, require_action. rewrite Hact. cbn [negb].
  change (bind (ret tt) ?k (Task h b)) with (k tt (Task h b)). cbv beta.
  rewrite bind_run. unfold choose_port.
  destruct (port args) as [p'|]; [discriminate|].
  change (bind get ?k (Task h b)) with (k h (Task h b)). cbv beta.
  destruct (ftdi_device_paths h) as [|p' ps]; [reflexivity | discriminate].
Qed.

(** The status of [amain] from the outcomes of its three steps. *)
Lemma amain_status args h b p :
  action_requested args = true -> chosen_port args h = Some p ->
  let r1 := flash_firmware p args (Task h b) in
  let r2 := check_version p args r1.2 in
  let r3 := update_settings p args r2.2 in
  exit_status (amain args (Task h b)).1 =
    match r1.1 with
    | Return _ =>
        match r2.1 with
        | Return _ =>
            match r3.1 with
            | Return _ => Some 0
            | o => exit_status o
            end
        | o => exit_status o
        end
    | o => exit_status o
    end.
Proof.
  intros Hact Hport. rewrite (amain_with_port args h b p Hact Hport). cbv zeta.
  rewrite bind_run.
  destruct (flash_firmware p args (Task h b)) as [[[]|e|c|] t1]; try reflexivity.
  cbn [fst snd]. rewrite bind_run.
  destruct (check_version p args t1) as [[[]|e|c|] t2]; try reflexivity.
  cbn [fst snd]. rewrite bind_run.
  destruct (update_settings p args t2) as [[[]|e|c|] t3]; reflexivity.
Qed.

Lemma version_ok_same p args h h' :
  host_same true p h h' -> version_ok p args h -> version_ok p args h'.
Proof.
  intros (_ & _ & _ & Hd) Hok m Hm.
  destruct (Hok m Hm) as (d & v & Hp & Hr & Hreply & Hlt). rewrite Hp in Hd.
  destruct (serial h' !! p) as [d'|] eqn:Hp'; [|contradiction].
  destruct Hd as (Hr' & _ & Hin). exists d', v.
  rewrite (Hin eq_refl). repeat split; try assumption. congruence.
Qed.

Lemma settings_ok_same keep p args h h' :
  host_same keep p h h' -> settings_ok p args h -> settings_ok p args h'.
Proof.
  intros Hsame Hok Hreq. eapply device_ready_same; [exact Hsame | auto].
Qed.

(** C8.  When at least one action is requested, the process ends with
    status 0 or 1: with 0 when all requested actions succeed, and with 1
    when no port was given and no device is found, when the firmware file
    does not exist, when the reported version is below the minimum, and when
    no version is obtained. *)
Theorem amain_exit_status (args : Namespace) (h : Host) (b : option Q) :
  action_requested args = true ->
  let status := exit_status (amain args (Task h b)).1 in
  (status = Some 0 \/ status = Some 1) /\
  (all_succeed args h -> status = Some 0) /\
  (port args = None -> ftdi_device_paths h = [] -> status = Some 1) /\
  (forall f, flash args = Some f -> files h f = false -> status = Some 1) /\
  (forall m p d dl v rest,
     minimumversion args = Some m -> chosen_port args h = Some p ->
     serial h !! p = Some d ->
     incoming (line d) = Arrival dl (Decoded 40 v) :: rest ->
     version_lt v m = Some true -> status = Some 1) /\
  (forall m p d,
     minimumversion args = Some m -> chosen_port args h = Some p ->
     serial h !! p = Some d -> no_version_reply (incoming (line d)) ->
     status = Some 1).
Proof.
  intros Hact status.
  destruct (chosen_port args h) as [p|] eqn:Hport.
  2:{ assert (Hst : status = Some 1)
        by (unfold status; rewrite amain_without_port by assumption; reflexivity).
      split_and!; try (intros; exact Hst); auto.
      intros (p & Hp & _). congruence. }
  assert (Hst := amain_status args h b p Hact Hport). cbv zeta in Hst. fold status in Hst.
  destruct (flash_firmware_spec p args h b) as (Hc1 & Hok1 & Hno1). cbv zeta in *.
  set (r1 := flash_firmware p args (Task h b)) in *.
  destruct r1 as [o1 [h1 b1]]. cbn [fst snd self] in *.
  destruct (check_version_spec p args h1 b1) as (Hc2 & Hok2 & Hno2). cbv zeta in *.
  set (r2 := check_version p args (Task h1 b1)) in *.
  destruct r2 as [o2 [h2 b2]]. cbn [fst snd self] in *.
  destruct (update_settings_spec p args h2 b2) as (Hc3 & Hok3). cbv zeta in *.
  set (r3 := update_settings p args (Task h2 b2)) in *.
  destruct r3 as [o3 [h3 b3]]. cbn [fst snd self] in *.
  unfold carries_on in Hc1, Hc2, Hc3. cbn [fst snd self] in Hc1, Hc2, Hc3.
  (* the three steps, one after the other *)
  assert (Hflow :
    (o1 = Return tt /\ host_same true p h h1 /\
     ((o2 = Return tt /\ host_same false p h1 h2 /\
       ((o3 = Return tt /\ status = Some 0) \/
        (exit_status o3 = Some 1 /\ status = Some 1))) \/
      (exit_status o2 = Some 1 /\ status = Some 1))) \/
    (exit_status o1 = Some 1 /\ status = Some 1)).
  { destruct Hc1 as [[-> Hs1]|Hf1].
    - left. split; [reflexivity|]. split; [exact Hs1|].
      destruct Hc2 as [[-> Hs2]|Hf2].
      + left. split; [reflexivity|]. split; [exact Hs2|].
        destruct Hc3 as [[-> Hs3]|Hf3]; [left; auto|].
        right. split; [exact Hf3|]. rewrite Hst.
        destruct (status_1_not_return _ Hf3) as [[e ->]| ->]; reflexivity.
      + right. split; [exact Hf2|]. rewrite Hst.
        destruct (status_1_not_return _ Hf2) as [[e ->]| ->]; reflexivity.
    - right. split; [exact Hf1|]. rewrite Hst.
      destruct (status_1_not_return _ Hf1) as [[e ->]| ->]; reflexivity. }
  split_and!.
  - destruct Hflow as [(_ & _ & [(_ & _ & [[_ H]|[_ H]])|[_ H]])|[_ H]]; auto.
  - intros (p' & Hp' & Hf & Hv & Hs). rewrite Hport in Hp'. inversion Hp'; subst p'.
    destruct Hflow as [(Ho1 & Hs1 & H2)|[Hf1 _]].
    2:{ rewrite (Hok1 Hf) in Hf1. discriminate. }
    pose proof (Hok2 (version_ok_same p args h h1 Hs1 Hv)) as Hr2.
    destruct H2 as [(Ho2 & Hs2 & H3)|[Hf2 _]].
    2:{ rewrite Hr2 in Hf2. discriminate. }
    assert (Hs02 : host_same false p h h2)
      by (eapply host_same_trans; [apply host_same_weaken, Hs1 | exact Hs2]).
    pose proof (Hok3 (settings_ok_same false p args h h2 Hs02 Hs)) as Hr3.
    destruct H3 as [[_ H]|[Hf3 _]]; [exact H|].
    rewrite Hr3 in Hf3. discriminate.
  - intros Hnone Hnopath. unfold chosen_port in Hport.
    rewrite Hnone, Hnopath in Hport. discriminate.
  - intros f Hf Hfile. rewrite (Hno1 f Hf Hfile) in Hst. exact Hst.
  - intros m p' d dl v rest Hm Hp' Hd Hin Hlt. inversion Hp'; subst p'.
    destruct Hflow as [(Ho1 & Hs1 & H2)|[_ H]]; [|exact H].
    destruct Hs1 as (_ & _ & _ & Hdev). rewrite Hd in Hdev.
    destruct (serial h1 !! p) as [d1|] eqn:Hd1; [|contradiction].
    destruct Hdev as (_ & _ & Hsame).
    assert (Hfail : exit_status o2 = Some 1).
    { apply (Hno2 m d1 Hm eq_refl). right. exists dl, v, rest.
      rewrite (Hsame eq_refl). auto. }
    destruct H2 as [(Ho2 & _)|[_ H]]; [|exact H].
    rewrite Ho2 in Hfail. discriminate.
  - intros m p' d Hm Hp' Hd Hno. inversion Hp'; subst p'.
    destruct Hflow as [(Ho1 & Hs1 & H2)|[_ H]]; [|exact H].
    destruct Hs1 as (_ & _ & _ & Hdev). rewrite Hd in Hdev.
    destruct (serial h1 !! p) as [d1|] eqn:Hd1; [|contradiction].
    destruct Hdev as (_ & _ & Hsame).
    assert (Hfail : exit_status o2 = Some 1).
    { apply (Hno2 m d1 Hm eq_refl). left. rewrite (Hsame eq_refl). exact Hno. }
    destruct H2 as [(Ho2 & _)|[_ H]]; [|exact H].
    rewrite Ho2 in Hfail. discriminate.
Qed.

(** ** A rover without device, and empty batches *)

Lemma sorted_set_nil (l : list Z) : sorted_set l = [] -> l = [].
Proof.
  intros Hnil. destruct l as [|i l]; [reflexivity|]. exfalso.
  assert (Hin : i ∈ sorted_set (i :: l)) by (apply sorted_set_elem; left).
  rewrite Hnil in Hin. inversion Hin.
Qed.

Lemma send_command_unconnected r b cmd a :
  _rover_protocol r = None ->
  _send_command cmd a (Task r b) = (Raise AttributeError, Task r b).
Proof.
  intros Hp. unfold _send_command, bind, get, on_protocol. cbn [self fst snd].
  rewrite Hp. reflexivity.
Qed.

(** X1.  On a rover whose device was never set, every command raises
    [AttributeError] and leaves the rover as it was; [set_fan_speed] still
    checks its argument first. *)
Theorem commands_need_device (r : Rover) (b : option Q) (cmd a : Z) (fan_speed : Q)
    (index : Z) (indices : list Z) :
  _rover_protocol r = None ->
  _send_command cmd a (Task r b) = (Raise AttributeError, Task r b) /\
  send_speed (Task r b) = (Raise AttributeError, Task r b) /\
  flipper_calibrate (Task r b) = (Raise AttributeError, Task r b) /\
  set_fan_speed fan_speed (Task r b) =
    (Raise (if between 0 1 fan_speed then AttributeError else AssertionError), Task r b) /\
  get_data index (Task r b) = (Raise AttributeError, Task r b) /\
  (indices <> [] -> get_data_items indices (Task r b) = (Raise AttributeError, Task r b)).
Proof. sweep.
  intros Hp. split_and!.
  - apply send_command_unconnected, Hp.
  - apply send_command_unconnected, Hp.
  - apply send_command_unconnected, Hp.
  - unfold set_fan_speed, bind, assert. destruct (between 0 1 fan_speed).
    + cbn [ret fst snd]. apply send_command_unconnected, Hp.
    + reflexivity.
  - rewrite get_data_unfold, send_command_unconnected by exact Hp. reflexivity.
  - intros Hne. rewrite get_data_items_unfold. cbv zeta.
    destruct (sorted_set indices) as [|i idx] eqn:Hs.
    { apply sorted_set_nil in Hs. contradiction. }
    cbn [for_each]. unfold bind at 1.
    rewrite send_command_unconnected by exact Hp. reflexivity.
Qed.

(** X2.  [get_data_items] on no index returns the empty dictionary at once:
    nothing is submitted and nothing is read, whatever the rover. *)
Theorem get_data_items_empty (t : task Rover) :
  get_data_items [] t = (Return ∅, t).
Proof. sweep. reflexivity. Qed.

(** X3.  [get_data_items] depends on the set of the indices only: their
    order and their repetitions change nothing of the run. *)
Theorem get_data_items_set (l l' : list Z) (t : task Rover) :
  (forall i, i ∈ l <-> i ∈ l') ->
  get_data_items l t = get_data_items l' t.
Proof. sweep.
  intros Hsame.
  assert (Hset : (list_to_set l : gset Z) = list_to_set l').
  { apply set_eq. intros i. rewrite !elem_of_list_to_set. apply Hsame. }
  unfold get_data_items, sorted_set. rewrite Hset. reflexivity.
Qed.

(** ** Waiting is bounded *)

Lemma comes_back_ret {S A} (a : A) : comes_back (S:=S) (ret a).
Proof. intros t. split; [reflexivity | left; eauto]. Qed.

Lemma comes_back_raise {S A} (e : exn) : comes_back (S:=S) (raise (A:=A) e).
Proof. intros t. split; [reflexivity | right; eauto]. Qed.

Lemma comes_back_assert {S} (c : bool) : comes_back (S:=S) (assert c).
Proof. destruct c; [apply comes_back_ret | apply comes_back_raise]. Qed.

Lemma comes_back_bind {S A B} (m : M S A) (k : A -> M S B) :
  comes_back m -> (forall a, comes_back (k a)) -> comes_back (bind m k).
Proof.
  intros Hm Hk t. rewrite bind_run. destruct (Hm t) as [Hb [[a Ha]|[e He]]].
  - rewrite Ha. destruct (Hk a (m t).2) as [Hb' Hc]. split; [congruence | exact Hc].
  - rewrite He. split; [exact Hb | right; eauto].
Qed.

Lemma comes_back_for_each {S X} (l : list X) (body : X -> M S unit) :
  (forall x, comes_back (body x)) -> comes_back (for_each l body).
Proof.
  intros Hb. induction l as [|x l IH]; cbn [for_each].
  - apply comes_back_ret.
  - apply comes_back_bind; [apply Hb | intros _; exact IH].
Qed.

Lemma comes_back_for_fold {S X A} (l : list X) (acc : A) (body : X -> A -> M S A) :
  (forall x a, comes_back (body x a)) -> comes_back (for_fold l acc body).
Proof.
  intros Hb. revert acc. induction l as [|x l IH]; intros acc; cbn [for_fold].
  - apply comes_back_ret.
  - apply comes_back_bind; [apply Hb | intros a; apply IH].
Qed.

Lemma send_command_comes_back cmd a : comes_back (_send_command cmd a).
Proof.
  intros [r b]. unfold _send_command, bind, get, on_protocol, write_nowait.
  cbn [self fst snd budget].
  destruct (_rover_protocol r) as [p|]; [|split; [reflexivity | right; eauto]].
  destruct (between (-1) 1 (_motor_left r) && between (-1) 1 (_motor_right r)
            && between (-1) 1 (_motor_flipper r));
    (split; [reflexivity|]); [left | right]; eauto.
Qed.

Lemma read_expecting_comes_back index : comes_back (read_expecting index).
Proof.
  intros [r b]. unfold read_expecting, fail_after, bind, on_protocol, read_one.
  cbn [self fst snd budget].
  destruct (_rover_protocol r) as [p|]; [|split; [reflexivity | right; eauto]].
  destruct (incoming p) as [|[d w] rest]; cbn [self fst snd budget after what];
    [split; [reflexivity | right; eauto]|].
  destruct (Qle_bool 1 d); [split; [reflexivity | right; eauto]|].
  unfold deliver. cbn [what]. destruct w as [k v|e];
    [|split; [reflexivity | right; eauto]].
  destruct (bool_decide (k ≠ index)); (split; [reflexivity|]); [right | left]; eauto.
Qed.

Lemma get_data_comes_back index : comes_back (get_data index).
Proof.
  apply comes_back_bind; [apply send_command_comes_back|]. intros _.
  apply comes_back_bind; [apply read_expecting_comes_back|].
  intros [k d]. apply comes_back_ret.
Qed.

Lemma get_data_items_comes_back indices : comes_back (get_data_items indices).
Proof.
  apply comes_back_bind.
  - apply comes_back_for_each. intros i. apply send_command_comes_back.
  - intros _. apply comes_back_bind; [|intros m; apply comes_back_ret].
    apply comes_back_for_fold. intros i acc.
    apply comes_back_bind; [apply read_expecting_comes_back|].
    intros [k d]. apply comes_back_ret.
Qed.


(** What a command that only writes leaves of the rover. *)
Lemma send_command_cases cmd a r b :
  let run := _send_command cmd a (Task r b) in
  pending (self run.2) = pending r /\ budget run.2 = b /\
  motors (self run.2) = motors r /\
  ((run.1 = Return tt /\
    queued (self run.2) =
      queued r ++ [Frame (_motor_left r) (_motor_right r) (_motor_flipper r) cmd a]) \/
   ((run.1 = Raise AttributeError \/ run.1 = Raise InvalidMotorValue) /\
    self run.2 = r)).
Proof.
  cbv zeta. unfold _send_command, bind, get, on_protocol, write_nowait.
  cbn [self fst snd budget].
  destruct (_rover_protocol r) as [p|] eqn:Hp.
  2:{ cbn [fst snd self budget]. split_and!; auto. }
  destruct (between (-1) 1 (_motor_left r) && between (-1) 1 (_motor_right r)
            && between (-1) 1 (_motor_flipper r)); cbn [fst snd self budget].
  - unfold pending, queued, motors. cbn. rewrite Hp. split_and!; auto.
  - unfold pending, queued, motors. cbn. rewrite Hp. split_and!; auto.
    right. split; [auto|]. destruct r; simpl in *; subst. destruct p; reflexivity.
Qed.

(** X6.  [send_speed], [set_fan_speed] and [flipper_calibrate] only write:
    they never read a reply and never wait, and each either queues exactly
    one frame, with the current motors, its verb and its argument, and
    returns, or raises and leaves the rover as it was. *)
Theorem commands_only_write (r : Rover) (b : option Q) (fan_speed : Q) :
  let effect (run : outcome unit * task Rover) (cmd a : Z) :=
    pending (self run.2) = pending r /\ budget run.2 = b /\
    ((run.1 = Return tt /\
      queued (self run.2) =
        queued r ++ [Frame (_motor_left r) (_motor_right r) (_motor_flipper r) cmd a]) \/
     ((exists e, run.1 = Raise e) /\ self run.2 = r)) in
  effect (send_speed (Task r b)) NOP 0 /\
  effect (set_fan_speed fan_speed (Task r b)) SET_FAN_SPEED
         (py_int (fl (fan_speed * 240))) /\
  effect (flipper_calibrate (Task r b)) FLIPPER_CALIBRATE FLIPPER_CALIBRATE.
Proof.
  assert (Hsend : forall cmd a,
    let run := _send_command cmd a (Task r b) in
    pending (self run.2) = pending r /\ budget run.2 = b /\
    ((run.1 = Return tt /\
      queued (self run.2) =
        queued r ++ [Frame (_motor_left r) (_motor_right r) (_motor_flipper r) cmd a]) \/
     ((exists e, run.1 = Raise e) /\ self run.2 = r))).
  { intros cmd a. destruct (send_command_cases cmd a r b) as (Hp & Hb & _ & Hc).
    cbv zeta. split; [exact Hp|]. split; [exact Hb|].
    destruct Hc as [Hret|[[He|He] Hs]]; [left; exact Hret | right..]; eauto. }
  cbv zeta. split; [|split].
  - apply (Hsend NOP 0).
  - unfold set_fan_speed, bind, assert. destruct (between 0 1 fan_speed).
    + cbn [ret fst snd]. apply (Hsend SET_FAN_SPEED).
    + cbn [raise fst snd self budget]. split; [reflexivity|].
      split; [reflexivity|]. right. eauto.
  - apply (Hsend FLIPPER_CALIBRATE FLIPPER_CALIBRATE).
Qed.

(** ** Sessions *)

#[local] Instance same_rover_refl : Reflexive same_rover.
Proof. intros r. split; reflexivity. Qed.

#[local] Instance same_rover_trans : Transitive same_rover.
Proof. sweep.
  intros a b c [Hm1 Hn1] [Hm2 Hn2]. split; [congruence | tauto].
Qed.

Lemma send_command_same_rover cmd a : stable same_rover (_send_command cmd a).
Proof.
  intros [r b]. unfold _send_command, bind, get, on_protocol, write_nowait.
  cbn [self fst snd budget].
  destruct (_rover_protocol r) as [p|] eqn:Hp; [|reflexivity].
  destruct (between (-1) 1 (_motor_left r) && between (-1) 1 (_motor_right r)
            && between (-1) 1 (_motor_flipper r)); cbn [fst snd self].
  - split; [reflexivity|]. cbn. rewrite Hp. split; discriminate.
  - split; [reflexivity|]. cbn. rewrite Hp. split; discriminate.
Qed.

Lemma read_expecting_same_rover index : stable same_rover (read_expecting index).
Proof.
  apply (stable_weaken reads); [|apply read_expecting_reads].
  intros r r' (Hm & _ & Hn). split; assumption.
Qed.

Lemma get_data_same_rover index : stable same_rover (get_data index).
Proof.
  apply stable_bind; [tc_solve | apply send_command_same_rover |]. intros _.
  apply stable_bind; [tc_solve | apply read_expecting_same_rover |].
  intros [k d]. apply stable_ret. tc_solve.
Qed.

Lemma get_data_items_same_rover indices : stable same_rover (get_data_items indices).
Proof.
  apply stable_bind; [tc_solve | | intros _].
  - apply stable_for_each; [tc_solve..|]. intros x. apply send_command_same_rover.
  - apply stable_bind; [tc_solve | | intros m; apply stable_ret; tc_solve].
    apply stable_for_fold; [tc_solve..|]. intros x acc.
    apply stable_bind; [tc_solve | apply read_expecting_same_rover |].
    intros [k d]. apply stable_ret. tc_solve.
Qed.

Lemma set_fan_speed_same_rover fan_speed : stable same_rover (set_fan_speed fan_speed).
Proof.
  apply stable_bind; [tc_solve | apply stable_assert; tc_solve |].
  intros _. apply send_command_same_rover.
Qed.

Lemma set_fan_speed_comes_back fan_speed : comes_back (set_fan_speed fan_speed).
Proof.
  apply comes_back_bind; [apply comes_back_assert|].
  intros _. apply send_command_comes_back.
Qed.

Lemma between_all left right flipper :
  between (-1) 1 left && between (-1) 1 right && between (-1) 1 flipper = true <->
  (-1 <= left <= 1)%Q /\ (-1 <= right <= 1)%Q /\ (-1 <= flipper <= 1)%Q.
Proof. sweep. rewrite !andb_true_iff, !between_spec. tauto. Qed.

(** One call: the invariant, the connection, the time of the scope, and the
    motor triple. *)
Lemma after_call_keeps (c : call) (t : task Rover) :
  motors_ok (self t) -> _rover_protocol (self t) <> None ->
  motors_ok (self (after_call c t)) /\
  _rover_protocol (self (after_call c t)) <> None /\
  budget (after_call c t) = budget t /\
  motors (self (after_call c t)) = last_speeds [c] (motors (self t)).
Proof. sweep.
  intros Hok Hdev.
  assert (Hsame : forall r', same_rover (self t) r' ->
            motors_ok r' /\ _rover_protocol r' <> None /\ motors r' = motors (self t)).
  { intros r' [Hm Hn]. split; [|split; [tauto | exact Hm]].
    unfold motors in Hm. inversion Hm as [[Hl Hr Hf]].
    unfold motors_ok. rewrite Hl, Hr, Hf. exact Hok. }
  destruct c as [left right flipper| |fan_speed| |index|indices];
    cbn [after_call last_speeds foldl].
  - destruct (between (-1) 1 left && between (-1) 1 right && between (-1) 1 flipper)
      eqn:Hin.
    + apply between_all in Hin. destruct Hin as (Hl & Hr & Hf).
      rewrite set_motor_speeds_accepts by assumption. cbn [snd self budget].
      split; [repeat split; tauto|]. split; [exact Hdev|]. split; reflexivity.
    + rewrite set_motor_speeds_rejects.
      * cbn [snd]. auto.
      * intros Hall. apply between_all in Hall. congruence.
  - destruct (Hsame _ (send_command_same_rover NOP 0 t)) as (H1 & H2 & H3).
    split; [exact H1|]. split; [exact H2|]. split; [|exact H3].
    apply (send_command_comes_back NOP 0 t).
  - destruct (Hsame _ (set_fan_speed_same_rover fan_speed t)) as (H1 & H2 & H3).
    split; [exact H1|]. split; [exact H2|]. split; [|exact H3].
    apply (set_fan_speed_comes_back fan_speed t).
  - destruct (Hsame _ (send_command_same_rover FLIPPER_CALIBRATE FLIPPER_CALIBRATE t))
      as (H1 & H2 & H3).
    split; [exact H1|]. split; [exact H2|]. split; [|exact H3].
    apply (send_command_comes_back FLIPPER_CALIBRATE FLIPPER_CALIBRATE t).
  - destruct (Hsame _ (get_data_same_rover index t)) as (H1 & H2 & H3).
    split; [exact H1|]. split; [exact H2|]. split; [|exact H3].
    apply (get_data_comes_back index t).
  - destruct (Hsame _ (get_data_items_same_rover indices t)) as (H1 & H2 & H3).
    split; [exact H1|]. split; [exact H2|]. split; [|exact H3].
    apply (get_data_items_comes_back indices t).
Qed.

Lemma after_calls_keeps (cs : list call) : forall t : task Rover,
  motors_ok (self t) -> _rover_protocol (self t) <> None ->
  motors_ok (self (after_calls cs t)) /\
  _rover_protocol (self (after_calls cs t)) <> None /\
  budget (after_calls cs t) = budget t /\
  motors (self (after_calls cs t)) = last_speeds cs (motors (self t)).
Proof.
  induction cs as [|c cs IH]; intros t Hok Hdev.
  - cbn. auto.
  - destruct (after_call_keeps c t Hok Hdev) as (H1 & H2 & H3 & H4).
    destruct (IH (after_call c t) H1 H2) as (H1' & H2' & H3' & H4').
    unfold after_calls, last_speeds in *. cbn [foldl] in *.
    split; [exact H1'|]. split; [exact H2'|]. split; [congruence|].
    rewrite H4', H4. reflexivity.
Qed.

(** X4.  On the rover that [open_rover] yields, after any sequence of calls
    of the operations of the class, whichever of them returned or raised,
    the rover is still connected, every stored motor value is in [-1, 1],
    and the motor triple is the one of the last [set_motor_speeds] whose
    arguments were in range, (0, 0, 0) when there was none. *)
Theorem session_invariant (device : OpenRoverProtocol) (b : option Q) (cs : list call) :
  let t := after_calls cs (Task (open_rover device) b) in
  motors_ok (self t) /\
  _rover_protocol (self t) <> None /\
  budget t = b /\
  motors (self t) = last_speeds cs (0, 0, 0)%Q.
Proof.
  cbv zeta. apply (after_calls_keeps cs (Task (open_rover device) b)).
  - unfold motors_ok, Qle; simpl. lia.
  - discriminate.
Qed.

(** ** After a timeout *)

Lemma get_data_connected r p b index :
  _rover_protocol r = Some p -> motors_ok r ->
  get_data index (Task r b) =
    match read_expecting index
            (Task (with_channel r
                     (Protocol (outgoing p ++ [request r index]) (incoming p))) b) with
    | (Return (k, data), t2) => (Return data, t2)
    | (Raise e, t2) => (Raise e, t2)
    | (Exit c, t2) => (Exit c, t2)
    | (Blocked, t2) => (Blocked, t2)
    end.
Proof.
  intros Hp Hok. rewrite get_data_unfold.
  rewrite (send_command_connected r p b GET_DATA index Hp Hok). reflexivity.
Qed.

(** X7.  A reply that arrives after [get_data] gave up is not discarded:
    the call raises [TooSlowError], and the next [get_data] reads that reply
    as the answer to its own request.  It returns the old value when it
    asks for the same index and raises [OpenRoverException] when it asks for
    another. *)
Theorem late_reply_answers_next_request (r : Rover) (p : OpenRoverProtocol)
    (b : option Q) (i j : Z) (d : Q) (v : Data) (rest : list arrival) :
  _rover_protocol r = Some p -> motors_ok r ->
  incoming p = Arrival d (Decoded i v) :: rest ->
  (1 <= d)%Q -> (d < 2)%Q ->
  let first := get_data i (Task r b) in
  first.1 = Raise TooSlowError /\
  pending (self first.2) = Arrival (d - 1) (Decoded i v) :: rest /\
  (get_data i first.2).1 = Return v /\
  (j <> i -> (get_data j first.2).1 = Raise OpenRoverException) /\
  pending (self (get_data j first.2).2) = rest.
Proof.
  intros Hp Hok Hin Hlate Hsoon. cbv zeta.
  rewrite (get_data_connected r p b i Hp Hok).
  erewrite read_expecting_late; [|reflexivity | cbn [incoming]; exact Hin | exact Hlate].
  cbn [fst snd self].
  match goal with |- context [get_data i (Task ?x b)] => set (r1 := x) end.
  assert (Hp1 : _rover_protocol r1 =
                Some (Protocol (outgoing p ++ [request r i])
                               (Arrival (d - 1) (Decoded i v) :: rest)))
    by reflexivity.
  assert (Hok1 : motors_ok r1) by exact Hok.
  assert (Hd : (d - 1 < 1)%Q) by lra.
  split; [reflexivity|]. split; [reflexivity|]. split; [|split].
  - rewrite (get_data_connected r1 _ b i Hp1 Hok1).
    erewrite read_expecting_in_time; [|reflexivity | reflexivity | exact Hd].
    rewrite bool_decide_eq_false_2 by (intros Hne; apply Hne; reflexivity).
    reflexivity.
  - intros Hne. rewrite (get_data_connected r1 _ b j Hp1 Hok1).
    erewrite read_expecting_in_time; [|reflexivity | reflexivity | exact Hd].
    rewrite bool_decide_eq_true_2 by congruence. reflexivity.
  - rewrite (get_data_connected r1 _ b j Hp1 Hok1).
    erewrite read_expecting_in_time; [|reflexivity | reflexivity | exact Hd].
    destruct (bool_decide (i ≠ j)); reflexivity.
Qed.

(** ** The version probe, in general *)

Lemma read_one_scoped out inc (b0 : Q) :
  let run := read_one (Task (Protocol out inc) (Some b0)) in
  outgoing (self run.2) = out /\
  (exists b1, budget run.2 = Some b1) /\
  ((exists e, run.1 = Raise e /\ length (incoming (self run.2)) = length inc) \/
   (exists k v d rest, run = (Return (k, v), Task (Protocol out rest) (Some (b0 - d)%Q)) /\
                       inc = Arrival d (Decoded k v) :: rest) \/
   (exists e, run.1 = Raise e /\ S (length (incoming (self run.2))) = length inc)).
Proof.
  cbv zeta. unfold read_one. cbn [self budget incoming outgoing].
  destruct inc as [|[d w] rest].
  - cbn. split; [reflexivity|]. split; [eauto|]. left. eauto.
  - cbn [after what]. destruct (Qle_bool b0 d).
    + cbn. split; [reflexivity|]. split; [eauto|]. left. eauto.
    + unfold deliver. cbn [what]. destruct w as [k v|e]; cbn.
      * split; [reflexivity|]. split; [eauto|]. right. left.
        exists k, v, d, rest. split; reflexivity.
      * split; [reflexivity|]. split; [eauto|]. right. right. eauto.
Qed.

Lemma replicate_snoc {X} (n : nat) (x : X) : replicate n x ++ [x] = x :: replicate n x.
Proof. induction n as [|n IH]; cbn; [reflexivity | rewrite IH; reflexivity]. Qed.

Lemma version_attempts_bounded (n : nat) : forall out inc (b0 : Q),
  let run := version_attempts n (Task (Protocol out inc) (Some b0)) in
  ((exists x, run.1 = Return x) \/ (exists e, run.1 = Raise e)) /\
  exists k : nat,
    (k <= n)%nat /\
    outgoing (self run.2) = out ++ replicate k probe /\
    (length inc <= length (incoming (self run.2)) + k)%nat.
Proof.
  induction n as [|n IH]; intros out inc b0; cbv zeta.
  - cbn. split; [left; eauto|]. exists 0%nat. rewrite app_nil_r.
    split; [lia|]. split; [reflexivity | cbn; lia].
  - rewrite version_attempts_S, write_probe.
    destruct (read_one_scoped (out ++ [probe]) inc b0) as (Hout & _ & Hcase).
    cbv zeta in Hout, Hcase.
    destruct Hcase as [(e & He & Hlen)|[(k & v & d & rest & Hrun & ->)|(e & He & Hlen)]].
    + destruct (read_one _) as [o t2]. cbn [fst snd] in *. subst o. cbn [fst snd].
      split; [right; eauto|]. exists 1%nat. cbn [replicate].
      split; [lia|]. split; [exact Hout | lia].
    + rewrite Hrun. destruct (bool_decide (k = 40)).
      * cbn [fst snd self outgoing incoming]. split; [left; eauto|].
        exists 1%nat. split; [lia|]. split; [reflexivity | cbn; lia].
      * destruct (IH (out ++ [probe]) rest (b0 - d)%Q) as (Hres & j & Hj & Hq & Hl).
        cbv zeta in Hres, Hq, Hl. split; [exact Hres|].
        exists (S j). split; [lia|]. split.
        -- rewrite Hq, <- app_assoc. cbn [app replicate]. reflexivity.
        -- cbn [length]. lia.
    + destruct (read_one _) as [o t2]. cbn [fst snd] in *. subst o. cbn [fst snd].
      split; [right; eauto|]. exists 1%nat. cbn [replicate].
      split; [lia|]. split; [exact Hout | lia].
Qed.

(** X8.  Whatever the device does, [get_openrover_version] comes back: with
    a value, or with [OpenRoverException] and no other exception.  It
    writes at most two frames, each the request for element 40 with the
    motors at rest, and none when the device does not open; it consumes at
    most as many replies as it wrote frames. *)
Theorem get_openrover_version_bounded (d : SerialTrio) (b : option Q) :
  let run := get_openrover_version (Task d b) in
  ((exists x, run.1 = Return x) \/ run.1 = Raise OpenRoverException) /\
  budget run.2 = b /\
  refuses (self run.2) = refuses d /\ write_fails (self run.2) = write_fails d /\
  raw_written (self run.2) = raw_written d /\
  exists k : nat,
    (k <= 2)%nat /\
    outgoing (line (self run.2)) = outgoing (line d) ++ replicate k probe /\
    (length (incoming (line d)) <= length (incoming (line (self run.2))) + k)%nat /\
    (refuses d <> None -> k = 0%nat).
Proof. sweep.
  destruct d as [[e|] wf [out inc] raw]; cbv zeta.
  - unfold get_openrover_version, try_except, fail_after, with_protocol. cbn.
    split; [right; reflexivity|]. repeat (split; [reflexivity|]).
    exists 0%nat. rewrite app_nil_r. split; [lia|]. split; [reflexivity|].
    split; [lia | reflexivity].
  - rewrite get_openrover_version_unfold.
    destruct (version_attempts_bounded 2 out inc 1%Q) as (Hres & k & Hk & Hq & Hl).
    cbv zeta in Hres, Hq, Hl.
    destruct (version_attempts 2 _) as [o t']. cbn [fst snd] in *.
    assert (Hfinal : exists k0 : nat,
              (k0 <= 2)%nat /\ outgoing (self t') = out ++ replicate k0 probe /\
              (length inc <= length (incoming (self t')) + k0)%nat /\
              (@None exn <> None -> k0 = 0%nat)).
    { exists k. split; [exact Hk|]. split; [exact Hq|]. split; [exact Hl|].
      intros Hne. exfalso. apply Hne. reflexivity. }
    destruct Hres as [[x ->]|[e ->]]; cbn [fst snd self budget refuses write_fails
                                            raw_written line outgoing incoming].
    + split; [left; eauto|]. repeat (split; [reflexivity|]). exact Hfinal.
    + split; [right; reflexivity|]. repeat (split; [reflexivity|]). exact Hfinal.
Qed.

(** ** Splitting at colons *)

Lemma split_nonempty n s : split n s <> [].
Proof.
  destruct n as [|n]; cbn; [discriminate|].
  destruct (cut s) as [[a b]|]; discriminate.
Qed.

(** X14.  The parts [s.split(':', maxsplit)] gives, joined with colons, are
    [s] again; there is at least one part and there are at most
    [maxsplit + 1]; and no part but the last contains a colon. *)
Theorem split_join (maxsplit : nat) (s : string) :
  join (split maxsplit s) = s /\
  (1 <= length (split maxsplit s) <= maxsplit + 1)%nat /\
  Forall colon_free (removelast (split maxsplit s)).
Proof. sweep.
  revert s. induction maxsplit as [|n IH]; intros s.
  - cbn. split; [reflexivity|]. split; [lia | constructor].
  - cbn [split]. destruct (cut s) as [[a b]|] eqn:Hcut.
    + apply cut_Some in Hcut as [-> Ha]. destruct (IH b) as (Hj & Hlen & Hfree).
      assert (Hne := split_nonempty n b).
      destruct (split n b) as [|x parts] eqn:Hparts; [contradiction|].
      split; [|split].
      * change (join (a :: x :: parts)) with (a +:+ String ":" (join (x :: parts))).
        rewrite Hj. reflexivity.
      * cbn [length] in *. lia.
      * cbn [removelast]. constructor; [apply cut_None, Ha | exact Hfree].
    + cbn. split; [reflexivity|]. split; [lia | constructor].
Qed.

(** ** What a run of pitstop touches, and what it sends *)

Lemma action_requested_false (args : Namespace) :
  action_requested args = false <->
  (flash args = None \/ flash args = Some EmptyString) /\
  minimumversion args = None /\
  (updatesettings args = None \/ updatesettings args = Some []).
Proof. sweep.
  unfold action_requested, truthy_str, truthy_list.
  destruct (flash args) as [[|c s]|], (minimumversion args) as [m|],
           (updatesettings args) as [[|x l]|]; cbn;
    split; try discriminate; try tauto;
    intros (Hf & Hm & Hu); try discriminate;
    destruct Hf as [Hf|Hf]; try discriminate;
    destruct Hu as [Hu|Hu]; discriminate.
Qed.

(** X10.  When no action is requested, [amain] ends with status 2 before
    it looks for a device, and the host is as it was.  That is the case when
    there is no minimum version, no setting, and no firmware file or the
    empty string for it. *)
Theorem amain_without_action (args : Namespace) (t : task Host) :
  (flash args = None \/ flash args = Some EmptyString) ->
  minimumversion args = None ->
  (updatesettings args = None \/ updatesettings args = Some []) ->
  amain args t = (Exit 2, t) /\ exit_status (amain args t).1 = Some 2.
Proof. sweep.
  intros Hf Hm Hu.
  assert (Hact : action_requested args = false)
    by (apply action_requested_false; auto).
  unfold action_requested in Hact.
  unfold amain, require_action, bind. rewrite Hact. split; reflexivity.
Qed.

#[local] Instance elsewhere_same_refl p : Reflexive (elsewhere_same p).
Proof. intros h. repeat split. Qed.

#[local] Instance elsewhere_same_trans p : Transitive (elsewhere_same p).
Proof. sweep.
  intros h1 h2 h3 (Ha & Hb & Hc & Hd) (Ha' & Hb' & Hc' & Hd').
  split_and!; try congruence. intros q Hq. rewrite Hd', Hd by exact Hq. reflexivity.
Qed.

Lemma stable_exit {S A} (R : relation S) `{!Reflexive R} (code : Z) :
  stable R (exit (S:=S) (A:=A) code).
Proof. intros t. reflexivity. Qed.

Lemma on_serial_elsewhere {A} p (m : M SerialTrio A) :
  stable (elsewhere_same p) (on_serial p m).
Proof.
  intros [h b]. unfold on_serial. cbn [self budget].
  destruct (serial h !! p) as [d|]; [|reflexivity].
  destruct (m (Task d b)) as [x t']. cbn [snd self].
  split_and!; try reflexivity. intros q Hq. cbn [serial].
  apply lookup_insert_ne. congruence.
Qed.

Lemma check_call_booty_elsewhere p q f : stable (elsewhere_same q) (check_call_booty p f).
Proof. intros [h b]. rewrite check_call_booty_step. reflexivity. Qed.

Lemma flash_firmware_elsewhere p args : stable (elsewhere_same p) (flash_firmware p args).
Proof.
  unfold flash_firmware. destruct (flash args) as [f|]; [|apply stable_ret; tc_solve].
  intros [h b]. change (bind get ?k (Task h b)) with (k h (Task h b)). cbv beta.
  assert (Hrest : forall c : bool, stable (elsewhere_same p)
    (let* _ := (if c then exit 1 else ret tt) in
     let* _ := on_serial p restart_block in
     let* _ := check_call_booty p f in
     on_serial p (with_serial_write "f701004041437f"))).
  { intros c. apply stable_bind; [tc_solve | |intros _].
    { destruct c; [apply stable_exit | apply stable_ret]; tc_solve. }
    apply stable_bind; [tc_solve | apply on_serial_elsewhere | intros _].
    apply stable_bind; [tc_solve | apply check_call_booty_elsewhere | intros _].
    apply on_serial_elsewhere. }
  exact (Hrest (negb (files h f)) (Task h b)).
Qed.

Lemma check_version_elsewhere p args : stable (elsewhere_same p) (check_version p args).
Proof.
  unfold check_version. destruct (minimumversion args) as [m|];
    [|apply stable_ret; tc_solve].
  apply stable_bind; [tc_solve | apply on_serial_elsewhere |].
  intros [v|]; [|apply stable_exit; tc_solve].
  destruct (version_lt v m) as [[|]|];
    [apply stable_exit | apply stable_ret | apply stable_raise]; tc_solve.
Qed.

Lemma update_settings_elsewhere p args :
  stable (elsewhere_same p) (update_settings p args).
Proof.
  unfold update_settings. destruct (truthy_list (updatesettings args));
    [apply on_serial_elsewhere | apply stable_ret; tc_solve].
Qed.

Lemma amain_without_port_run args h b :
  action_requested args = true -> chosen_port args h = None ->
  amain args (Task h b) = (Exit 1, Task h b).
Proof.
  unfold action_requested, chosen_port. intros Hact Hport.
  unfold amain, require_action. rewrite Hact. cbn [negb].
  change (bind (ret tt) ?k (Task h b)) with (k tt (Task h b)). cbv beta.
  rewrite bind_run. unfold choose_port.
  destruct (port args) as [p'|]; [discriminate|].
  change (bind get ?k (Task h b)) with (k h (Task h b)). cbv beta.
  destruct (ftdi_device_paths h) as [|p' ps]; [reflexivity | discriminate].
Qed.

(** X11.  [amain] works on one device only, the one given by [--port] or
    else the first one found: in every outcome the other serial devices,
    the files and the list of the paths are as they were. *)
Theorem amain_touches_one_device (args : Namespace) (h : Host) (b : option Q)
    (q : string) :
  chosen_port args h <> Some q ->
  let h' := self (amain args (Task h b)).2 in
  serial h' !! q = serial h !! q /\
  ftdi_device_paths h' = ftdi_device_paths h /\ files h' = files h /\
  booty h' = booty h.
Proof.
  intros Hq. cbv zeta.
  destruct (action_requested args) eqn:Hact.
  2:{ unfold action_requested in Hact.
      unfold amain, require_action, bind. rewrite Hact. cbn. auto. }
  destruct (chosen_port args h) as [p|] eqn:Hport.
  2:{ rewrite amain_without_port_run by assumption. cbn. auto. }
  rewrite (amain_with_port args h b p Hact Hport).
  assert (Hst : stable (elsewhere_same p)
            (let* _ := flash_firmware p args in
             let* _ := check_version p args in
             let* _ := update_settings p args in
             (exit 0 : M Host unit))).
  { apply stable_bind; [tc_solve | apply flash_firmware_elsewhere | intros _].
    apply stable_bind; [tc_solve | apply check_version_elsewhere | intros _].
    apply stable_bind; [tc_solve | apply update_settings_elsewhere | intros _].
    apply stable_exit. tc_solve. }
  destruct (Hst (Task h b)) as (Hpaths & Hfiles & Hbooty & Hother).
  cbn [self] in *. split; [|auto]. apply Hother. congruence.
Qed.

Lemma restart_block_healthy out inc raw (b : option Q) :
  restart_block (Task (healthy out inc raw) b) =
    (Return tt, Task (healthy (out ++ [Frame 0 0 0 RESTART 0]) inc raw) b).
Proof. reflexivity. Qed.

Lemma wake_healthy data out inc raw (b : option Q) :
  with_serial_write data (Task (healthy out inc raw) b) =
    (Return tt, Task (healthy out inc (raw ++ [data])) b).
Proof. reflexivity. Qed.

Lemma on_serial_run {A} h p d d' b (x : outcome A) (m : M SerialTrio A) :
  serial h !! p = Some d -> m (Task d b) = (x, Task d' b) ->
  exists h', on_serial p m (Task h b) = (x, Task h' b) /\
             serial h' !! p = Some d' /\ files h' = files h /\ booty h' = booty h.
Proof.
  intros Hd Hm. rewrite (on_serial_Some h p d b m Hd), Hm. cbn [fst snd self budget].
  eexists. split; [reflexivity|]. cbn [serial files booty].
  split; [apply lookup_insert_eq | split; reflexivity].
Qed.

(** The firmware step on a healthy device. *)
Lemma flash_trace p args h b out inc raw :
  serial h !! p = Some (healthy out inc raw) ->
  (forall f, flash args = Some f -> files h f = true /\ booty h p f = 0) ->
  exists h', flash_firmware p args (Task h b) = (Return tt, Task h' b) /\
             serial h' !! p =
               Some (healthy (out ++ flash_frames args) inc (raw ++ flash_raw args)) /\
             files h' = files h /\ booty h' = booty h.
Proof.
  intros Hd Hok. unfold flash_firmware, flash_frames, flash_raw.
  destruct (flash args) as [f|].
  2:{ exists h. rewrite !app_nil_r. auto. }
  destruct (Hok f eq_refl) as [Hfile Hbooty].
  change (bind get ?k (Task h b)) with (k h (Task h b)). cbv beta.
  rewrite Hfile. cbn [negb].
  change (bind (ret tt) ?k (Task h b)) with (k tt (Task h b)). cbv beta.
  destruct (on_serial_run h p _ _ b _ restart_block Hd (restart_block_healthy out inc raw b))
    as (h1 & Hrun1 & Hd1 & Hf1 & Hb1).
  rewrite bind_run, Hrun1. cbn [fst snd].
  rewrite bind_run, check_call_booty_step. cbn [fst snd].
  rewrite bool_decide_eq_true_2 by (rewrite Hb1; exact Hbooty).
  destruct (on_serial_run h1 p _ _ b _ (with_serial_write "f701004041437f") Hd1
              (wake_healthy _ _ inc raw b)) as (h2 & Hrun2 & Hd2 & Hf2 & Hb2).
  exists h2. rewrite Hrun2. split; [reflexivity|]. split; [exact Hd2|].
  split; congruence.
Qed.

(** The firmware step when the bootloader fails. *)
Lemma flash_booty_fails p args h b out inc raw f :
  serial h !! p = Some (healthy out inc raw) ->
  flash args = Some f -> files h f = true -> booty h p f <> 0 ->
  exists h', flash_firmware p args (Task h b) = (Raise CalledProcessError, Task h' b) /\
             serial h' !! p = Some (healthy (out ++ [Frame 0 0 0 RESTART 0]) inc raw).
Proof.
  intros Hd Hflash Hfile Hbooty. unfold flash_firmware. rewrite Hflash.
  change (bind get ?k (Task h b)) with (k h (Task h b)). cbv beta.
  rewrite Hfile. cbn [negb].
  change (bind (ret tt) ?k (Task h b)) with (k tt (Task h b)). cbv beta.
  destruct (on_serial_run h p _ _ b _ restart_block Hd (restart_block_healthy out inc raw b))
    as (h1 & Hrun1 & Hd1 & Hf1 & Hb1).
  rewrite bind_run, Hrun1. cbn [fst snd].
  rewrite bind_run, check_call_booty_step. cbn [fst snd].
  rewrite bool_decide_eq_false_2 by (rewrite Hb1; exact Hbooty).
  exists h1. split; [reflexivity | exact Hd1].
Qed.

(** The version step on a healthy device whose next reply is in time. *)
Lemma version_trace p args h b out raw m dl k v rest :
  serial h !! p = Some (healthy out (Arrival dl (Decoded k v) :: rest) raw) ->
  minimumversion args = Some m -> (dl < 10)%Q ->
  exists h',
    check_version p args (Task h b) =
      (if bool_decide (k = 40) then
         match version_lt v m with
         | Some false => Return tt
         | Some true => Exit 1
         | None => Raise TypeError
         end
       else Exit 1, Task h' b) /\
    serial h' !! p = Some (healthy (out ++ [Frame 0 0 0 GET_DATA 40]) rest raw) /\
    files h' = files h /\ booty h' = booty h.
Proof.
  intros Hd Hmin Hdl. unfold check_version. rewrite Hmin.
  destruct (on_serial_run h p _ _ b _ version_block Hd
              (version_block_in_time None out dl (Decoded k v) rest raw b Hdl))
    as (h1 & Hrun1 & Hd1 & Hf1 & Hb1).
  rewrite bind_run, Hrun1. cbn [fst snd]. exists h1.
  split; [|split; [exact Hd1 | auto]].
  destruct (bool_decide (k = 40)); [|reflexivity].
  destruct (version_lt v m) as [[|]|]; reflexivity.
Qed.



(** X13.  When the bootloader process fails, [amain] ends with
    [CalledProcessError], so with status 1, and the rover has been told to
    restart and nothing more: no wake-up bytes, no version request and no
    setting are sent. *)
Theorem amain_stops_after_bootloader (args : Namespace) (h : Host) (b : option Q)
    (p f : string) (out : list CommandFrame) (inc : list arrival) (raw : list string) :
  chosen_port args h = Some p ->
  serial h !! p = Some (healthy out inc raw) ->
  flash args = Some f -> f <> EmptyString -> files h f = true -> booty h p f <> 0 ->
  exists h',
    amain args (Task h b) = (Raise CalledProcessError, Task h' b) /\
    exit_status (amain args (Task h b)).1 = Some 1 /\
    serial h' !! p = Some (healthy (out ++ [Frame 0 0 0 RESTART 0]) inc raw).
Proof.
  intros Hport Hd Hflash Hne Hfile Hbooty.
  assert (Hact : action_requested args = true).
  { unfold action_requested. rewrite Hflash. destruct f; [contradiction | reflexivity]. }
  rewrite (amain_with_port args h b p Hact Hport).
  destruct (flash_booty_fails p args h b out inc raw f Hd Hflash Hfile Hbooty)
    as (h1 & Hrun1 & Hd1).
  rewrite bind_run, Hrun1. cbn [fst snd]. exists h1. auto.
Qed.

(** X15.  When the rover answers the version request in time with a version
    below the minimum, or with a reply for another element, [amain] ends
    with [exit(1)] after the request: the settings are not sent. *)
Theorem amain_stops_after_version (args : Namespace) (h : Host) (b : option Q)
    (p : string) (out : list CommandFrame) (raw : list string)
    (m : LooseVersion) (dl : Q) (k : Z) (v : Data) (rest : list arrival) :
  chosen_port args h = Some p ->
  serial h !! p = Some (healthy out (Arrival dl (Decoded k v) :: rest) raw) ->
  (forall f, flash args = Some f -> files h f = true /\ booty h p f = 0) ->
  minimumversion args = Some m -> (dl < 10)%Q ->
  k <> 40 \/ version_lt v m = Some true ->
  exists h',
    amain args (Task h b) = (Exit 1, Task h' b) /\
    serial h' !! p =
      Some (healthy (out ++ flash_frames args ++ [Frame 0 0 0 GET_DATA 40]) rest
              (raw ++ flash_raw args)).
Proof.
  intros Hport Hd Hflash Hmin Hdl Hbad.
  assert (Hact : action_requested args = true).
  { unfold action_requested. rewrite Hmin.
    rewrite bool_decide_eq_true_2 by eauto. apply orb_true_iff. left.
    apply orb_true_r. }
  rewrite (amain_with_port args h b p Hact Hport).
  destruct (flash_trace p args h b out _ raw Hd Hflash) as (h1 & Hrun1 & Hd1 & Hf1 & Hb1).
  rewrite bind_run, Hrun1. cbn [fst snd].
  destruct (version_trace p args h1 b _ _ m dl k v rest Hd1 Hmin Hdl)
    as (h2 & Hrun2 & Hd2 & _).
  rewrite bind_run, Hrun2. cbn [fst snd]. exists h2.
  assert (Hout : (if bool_decide (k = 40) then
                    match version_lt v m with
                    | Some false => Return tt
                    | Some true => Exit 1
                    | None => Raise TypeError
                    end
                  else Exit 1) = Exit 1 :> outcome unit).
  { destruct Hbad as [Hk|Hlt].
    - rewrite bool_decide_eq_false_2 by exact Hk. reflexivity.
    - rewrite Hlt. destruct (bool_decide (k = 40)); reflexivity. }
  rewrite Hout. split; [reflexivity|]. rewrite Hd2, <- app_assoc. reflexivity.
Qed.

(** ** Speeds and heartbeats *)

(** X9.  The heartbeat after [set_motor_speeds] carries the new speeds when
    the call was accepted, and the speeds of before when it was rejected:
    [send_speed] then queues exactly the frame made of that triple, [NOP]
    and 0. *)
Theorem heartbeat_after_set_motor_speeds (r : Rover) (p : OpenRoverProtocol)
    (b : option Q) (left right flipper : Q) :
  _rover_protocol r = Some p ->
  let t1 := (set_motor_speeds left right flipper (Task r b)).2 in
  ((-1 <= left <= 1)%Q /\ (-1 <= right <= 1)%Q /\ (-1 <= flipper <= 1)%Q ->
   send_speed t1 =
     (Return tt,
      Task (MkRover left right flipper
              (Some (Protocol (outgoing p ++ [Frame left right flipper NOP 0])
                              (incoming p)))) b)) /\
  (~ ((-1 <= left <= 1)%Q /\ (-1 <= right <= 1)%Q /\ (-1 <= flipper <= 1)%Q) ->
   motors_ok r ->
   send_speed t1 =
     (Return tt,
      Task (with_channel r
              (Protocol
                 (outgoing p ++
                  [Frame (_motor_left r) (_motor_right r) (_motor_flipper r) NOP 0])
                 (incoming p))) b)).
Proof.
  intros Hp. cbv zeta. split.
  - intros (Hl & Hr & Hf). rewrite set_motor_speeds_accepts by assumption.
    cbn [snd self budget]. rewrite Hp. unfold send_speed.
    rewrite (send_command_connected (MkRover left right flipper (Some p)) p b NOP 0
               eq_refl (conj Hl (conj Hr Hf))).
    reflexivity.
  - intros Hout Hok. rewrite set_motor_speeds_rejects by exact Hout.
    cbn [snd]. unfold send_speed.
    rewrite (send_command_connected r p b NOP 0 Hp Hok). reflexivity.
Qed.

(** ** Settings from the command line *)



(** ** Batches that stop, and batches against single reads *)

Lemma read_into_late r out b i d w rest acc :
  (1 <= d)%Q ->
  read_into i acc (Task (with_channel r (Protocol out (Arrival d w :: rest))) b) =
    (Raise TooSlowError,
     Task (with_channel r (Protocol out (Arrival (d - 1) w :: rest))) b).
Proof.
  intros Hd. unfold read_into, bind.
  erewrite read_expecting_late; [|reflexivity | reflexivity | exact Hd]. reflexivity.
Qed.

Lemma read_loop_late r b out replies :
  forall idx d w rest acc,
  Forall2 answers (take (length replies) idx) replies ->
  (length replies < length idx)%nat -> (1 <= d)%Q ->
  for_fold idx acc read_into
    (Task (with_channel r (Protocol out (replies ++ Arrival d w :: rest))) b) =
    (Raise TooSlowError,
     Task (with_channel r (Protocol out (Arrival (d - 1) w :: rest))) b).
Proof.
  induction replies as [|a replies IH]; intros idx d w rest acc Hall Hlen Hd;
    destruct idx as [|i idx]; simpl in Hlen; try lia.
  - rewrite for_fold_cons. simpl app. rewrite read_into_late by exact Hd. reflexivity.
  - simpl in Hall. apply Forall2_cons in Hall as [[Ha [va Hva]] Hall].
    destruct a as [da wa]; simpl in Ha, Hva; subst wa.
    rewrite for_fold_cons. simpl app. rewrite read_into_in_time by exact Ha.
    rewrite bool_decide_eq_false_2 by (intros Hn; apply Hn; reflexivity).
    apply IH; [exact Hall | lia | exact Hd].
Qed.

(** X17.  When a reply of a batch does not come in time, after the replies
    before it came as expected, [get_data_items] raises [TooSlowError]: all
    the requests have been submitted, the replies before are consumed and
    their values are lost with the call, and the late reply stays in the
    channel for the next read. *)
Theorem get_data_items_late_reply (r : Rover) (p : OpenRoverProtocol) (b : option Q)
    (indices : list Z) (replies : list arrival) (d : Q) (w : reply) (rest : list arrival) :
  _rover_protocol r = Some p -> motors_ok r ->
  let idx := sorted_set indices in
  incoming p = replies ++ Arrival d w :: rest ->
  Forall2 answers (take (length replies) idx) replies ->
  (length replies < length idx)%nat -> (1 <= d)%Q ->
  get_data_items indices (Task r b) =
    (Raise TooSlowError,
     Task (with_channel r
             (Protocol (outgoing p ++ (request r <$> idx)) (Arrival (d - 1) w :: rest)))
          b).
Proof.
  intros Hp Hok idx Hin Hall Hlen Hd.
  rewrite (get_data_items_connected r p b indices Hp Hok), Hin.
  apply read_loop_late; assumption.
Qed.

Lemma get_data_each_loop r b idx replies :
  motors_ok r -> Forall2 answers idx replies ->
  forall out rest acc,
  for_fold idx acc
    (fun index result =>
       let* data := get_data index in ret (<[index := Some data]> result))
    (Task (with_channel r (Protocol out (replies ++ rest))) b) =
  (Return (fill acc replies),
   Task (with_channel r (Protocol (out ++ (request r <$> idx)) rest)) b).
Proof.
  intros Hok. induction 1 as [|i a idx replies [Hd [v Hv]] _ IH]; intros out rest acc.
  - cbn. unfold ret. rewrite app_nil_r. reflexivity.
  - destruct a as [d w]; simpl in Hd, Hv; subst w.
    rewrite for_fold_cons. unfold bind at 1.
    rewrite (get_data_connected (with_channel r (Protocol out _)) _ b i eq_refl Hok).
    erewrite read_expecting_in_time; [|reflexivity | reflexivity | exact Hd].
    rewrite bool_decide_eq_false_2 by (intros Hne; apply Hne; reflexivity).
    cbn [ret fst snd].
    change (with_channel (with_channel r ?x) ?y) with (with_channel r y).
    cbn [outgoing]. 
    change (request (with_channel r ?x) i) with (request r i).
    rewrite (IH (out ++ [request r i]) rest (<[i := Some v]> acc)).
    cbn [fill foldl what fmap list_fmap]. rewrite <- app_assoc. reflexivity.
Qed.

Lemma get_data_each_run r p b idx replies rest :
  _rover_protocol r = Some p -> motors_ok r ->
  incoming p = replies ++ rest -> Forall2 answers idx replies ->
  get_data_each idx (Task r b) =
    (Return (fill (dict_fromkeys idx) replies),
     Task (with_channel r (Protocol (outgoing p ++ (request r <$> idx)) rest)) b).
Proof.
  intros Hp Hok Hin Hall. destruct r as [ml mr mf pr], p as [out inc].
  simpl in Hp, Hin. subst pr inc.
  exact (get_data_each_loop (MkRover ml mr mf (Some (Protocol out (replies ++ rest))))
           b idx replies Hok Hall out rest (dict_fromkeys idx)).
Qed.

(** X18.  When the rover answers every request in time and in order,
    [get_data_items] gives what reading the distinct indices one by one
    with [get_data], in ascending order, gives: the same dictionary, the
    same frames in the queue and the same replies consumed. *)
Theorem get_data_items_as_single_reads (r : Rover) (p : OpenRoverProtocol)
    (b : option Q) (indices : list Z) (replies rest : list arrival) :
  _rover_protocol r = Some p -> motors_ok r ->
  incoming p = replies ++ rest ->
  Forall2 answers (sorted_set indices) replies ->
  get_data_items indices (Task r b) = get_data_each (sorted_set indices) (Task r b) /\
  exists m, (get_data_items indices (Task r b)).1 = Return m.
Proof.
  intros Hp Hok Hin Hall.
  rewrite (get_data_each_run r p b _ replies rest Hp Hok Hin Hall).
  rewrite (get_data_items_connected r p b indices Hp Hok), Hin.
  rewrite (read_loop_all r b _ _ _ Hall).
  split; [reflexivity | eauto].
Qed.

End Openrover.

(** ** Concrete runs

    The telemetry values are integers, the numbers are exact, the verbs
    have sample values, and [int] reads plain decimal numerals. *)

Definition digit (c : ascii) : option Z :=
  let n := Z.of_N (N_of_ascii c) in
  if (48 <=? n) && (n <=? 57) then Some (n - 48) else None.

Fixpoint decimal (acc : Z) (s : string) : option Z :=
  match s with
  | EmptyString => Some acc
  | String c s' =>
      match digit c with
      | Some d => decimal (10 * acc + d) s'
      | None => None
      end
  end.

Definition int_of_digits (s : string) : option Z :=
  match s with
  | EmptyString => None
  | _ => decimal 0 s
  end.

Definition sample_verbs : list Z := [0; 1; 2; 3; 4; 5; 6; 7; 8; 10; 20; 230; 250].

Definition is_sample_verb (n : Z) : bool := bool_decide (n ∈ sample_verbs).

Definition exact : Q -> Q := fun x => x.

(** A connected rover that moves at left = 0.5, with the replies to come. *)
Definition moving_rover (inc : list (arrival Z)) : Rover Z :=
  MkRover Z (1 # 2) 0 0 (Some (Protocol Z [] inc)).

Lemma moving_rover_ok inc : motors_ok Z (moving_rover inc).
Proof. unfold motors_ok, Qle; simpl; lia. Defined.

Definition three_replies : list (arrival Z) :=
  [Arrival Z (1 # 10) (Decoded Z 14 7); Arrival Z (1 # 10) (Decoded Z 28 8);
   Arrival Z (1 # 10) (Decoded Z 40 9)].

Definition stale_replies : list (arrival Z) :=
  [Arrival Z (1 # 10) (Decoded Z 14 7); Arrival Z (1 # 10) (Decoded Z 28 8)].

Lemma get_data_items_batch_witness :
  let run := get_data_items Z 10 [40; 14; 14; 28] (Task (moving_rover three_replies) None) in
  exists m,
    run.1 = Return m /\
    dom m = list_to_set [40; 14; 14; 28] /\
    m !! 14 = Some (Some 7) /\
    length (queued Z (self run.2)) = 3%nat.
Proof.
  destruct (get_data_items_batch Z 10 (moving_rover three_replies) (Protocol Z [] three_replies)
              None [40; 14; 14; 28] eq_refl (moving_rover_ok three_replies))
    as (_ & Hsent & Hgood & _).
  destruct (Hgood three_replies []) as (m & Hrun & Hdom & Hlook).
  - reflexivity.
  - replace (sorted_set [40; 14; 14; 28]) with [14; 28; 40] by (vm_compute; reflexivity).
    repeat (constructor; [split; [reflexivity | eexists; reflexivity]|]).
    constructor.
  - exists m. cbv zeta. rewrite Hsent, Hrun. split; [reflexivity|]. split; [exact Hdom|].
    split.
    + destruct (Hlook 0%nat 14 (Arrival Z (1 # 10) (Decoded Z 14 7))) as (v & Hv & Hm).
      * vm_compute. reflexivity.
      * reflexivity.
      * simpl in Hv. inversion Hv; subst v. exact Hm.
    + vm_compute. reflexivity.
Defined.

Lemma every_frame_carries_current_motors_witness :
  queued Z (self (_send_command Z 10 14 (Task (moving_rover []) None)).2) =
    [Frame (1 # 2) 0 0 10 14].
Proof.
  destruct (every_frame_carries_current_motors Z exact 0 10 20 250
              (Task (moving_rover []) None) 10 14 (1 # 2) 14 [14])
    as (_ & _ & _ & _ & _ & _ & Hsend).
  destruct (Hsend (Protocol Z [] []) eq_refl (moving_rover_ok [])) as [_ Hq].
  exact Hq.
Defined.

Lemma get_data_checks_key_witness :
  (get_data Z 10 14 (Task (moving_rover stale_replies) None)).1 = Return 7 /\
  (get_data Z 10 28 (Task (moving_rover stale_replies) None)).1 = Raise OpenRoverException.
Proof.
  split.
  - destruct (get_data_checks_key Z 10 (moving_rover stale_replies)
                (Protocol Z [] stale_replies) None 14 eq_refl
                (moving_rover_ok stale_replies)) as (Hreply & _).
    destruct (Hreply (1 # 10)%Q 14 7 [Arrival Z (1 # 10) (Decoded Z 28 8)] eq_refl eq_refl)
      as [Hsame _].
    rewrite (Hsame eq_refl). reflexivity.
  - destruct (get_data_checks_key Z 10 (moving_rover stale_replies)
                (Protocol Z [] stale_replies) None 28 eq_refl
                (moving_rover_ok stale_replies)) as (Hreply & _).
    destruct (Hreply (1 # 10)%Q 14 7 [Arrival Z (1 # 10) (Decoded Z 28 8)] eq_refl eq_refl)
      as [_ Hother].
    rewrite Hother by lia. reflexivity.
Defined.

Lemma set_motor_speeds_keeps_range_witness :
  (set_motor_speeds Z 2 0 0 (Task (moving_rover []) None)).1 = Raise AssertionError /\
  motors_ok Z (self (set_motor_speeds Z (-1) (1 # 4) 1 (Task (moving_rover []) None)).2).
Proof.
  split.
  - destruct (set_motor_speeds_keeps_range Z 2 0 0 (Task (moving_rover []) None))
      as [Hout _].
    apply Hout. unfold Qle; simpl; lia.
  - destruct (set_motor_speeds_keeps_range Z (-1) (1 # 4) 1 (Task (moving_rover []) None))
      as [_ Hin].
    destruct (Hin tt (set_motor_speeds Z (-1) (1 # 4) 1 (Task (moving_rover []) None)).2
                eq_refl) as [Hok _].
    exact Hok.
Defined.

Lemma set_motor_speeds_rejected_unchanged_witness :
  (set_motor_speeds Z 0 0 (3 # 2) (Task (moving_rover []) None)).2 =
    Task (moving_rover []) None.
Proof.
  apply (set_motor_speeds_rejected_unchanged Z 0 0 (3 # 2) (Task (moving_rover []) None)).
  right. right. unfold Qle; simpl; lia.
Defined.

Lemma set_fan_speed_scales_witness :
  set_fan_speed Z exact 20 (1 # 2) (Task (moving_rover []) None) =
    (Return tt,
     Task (with_channel Z (moving_rover [])
             (Protocol Z [Frame (1 # 2) 0 0 20 120] [])) None) /\
  fan_duty exact 0 = 0 /\ fan_duty exact 1 = 240.
Proof.
  destruct (set_fan_speed_scales Z exact 20 (fun x y H => H) (Qeq_refl 0) (Qeq_refl 240)
              (moving_rover []) (Protocol Z [] []) None (1 # 2) eq_refl
              (moving_rover_ok [])) as (Hin & _ & H0 & H1 & _).
  split; [|split].
  - destruct Hin as [Hrun _]; [unfold Qle; simpl; lia|]. exact Hrun.
  - apply H0. reflexivity.
  - apply H1. reflexivity.
Defined.

(** The version probe on a device whose two replies in time are for other
    elements: the function returns [None] and raises nothing. *)
Lemma get_openrover_version_cases_witness :
  get_openrover_version Z 10
    (Task (Serial Z None None (Protocol Z [] stale_replies) []) None) =
  (Return None,
   Task (Serial Z None None (Protocol Z [probe 10; probe 10] []) []) None).
Proof.
  destruct (get_openrover_version_cases Z 10 None [] [] None) as (_ & _ & Hstale & _).
  apply (Hstale (1 # 10)%Q 14 7 (1 # 10)%Q 28 8 []).
  - lia.
  - lia.
  - unfold Qle; simpl; lia.
  - reflexivity.
Defined.

Lemma rover_command_arg_pair_accepts_witness :
  rover_command_arg_pair is_sample_verb int_of_digits "3:200" = Return (3, 200) /\
  rover_command_arg_pair is_sample_verb int_of_digits "9:1" = Raise ValueError /\
  rover_command_arg_pair is_sample_verb int_of_digits "3:256" = Raise ValueError /\
  rover_command_arg_pair is_sample_verb int_of_digits "3:4:5" = Raise ValueError.
Proof.
  split; [|vm_compute; auto].
  destruct (rover_command_arg_pair_accepts is_sample_verb int_of_digits "3:200")
    as [Hiff _].
  apply Hiff. exists "3"%string, "200"%string.
  split; [reflexivity|].
  split; [apply cut_None; reflexivity|].
  split; [apply cut_None; reflexivity|].
  split; [reflexivity|]. split; [reflexivity|]. split; [lia|].
  split; [reflexivity | lia].
Defined.

(** A host with one rover that reports version 7 in time. *)
Definition one_rover : Host Z :=
  MkHost Z ["/dev/ttyUSB0"%string] (fun _ => false)
    {[ "/dev/ttyUSB0"%string :=
         Serial Z None None (Protocol Z [] [Arrival Z (1 # 100) (Decoded Z 40 7)]) [] ]}
    (fun _ _ => 0).

Definition no_rover : Host Z := MkHost Z [] (fun _ => false) ∅ (fun _ _ => 0).

Definition at_least (m : Z) : Namespace Z := Args Z None None (Some m) None.

Definition below : Z -> Z -> option bool := fun v m => Some (v <? m).

Lemma amain_exit_status_witness :
  exit_status (amain Z 10 230 1 2 Z below (at_least 5) (Task one_rover None)).1 = Some 0 /\
  exit_status (amain Z 10 230 1 2 Z below (at_least 9) (Task one_rover None)).1 = Some 1 /\
  exit_status (amain Z 10 230 1 2 Z below (at_least 5) (Task no_rover None)).1 = Some 1.
Proof.
  split; [|split].
  - destruct (amain_exit_status Z 10 230 1 2 Z below (at_least 5) one_rover None eq_refl)
      as (_ & Hgood & _).
    apply Hgood. exists "/dev/ttyUSB0"%string.
    split; [reflexivity|]. split; [intros f Hf; discriminate|].
    split; [|intros Hs; discriminate].
    intros m Hm. inversion Hm; subst m.
    exists (Serial Z None None (Protocol Z [] [Arrival Z (1 # 100) (Decoded Z 40 7)]) []), 7.
    split; [vm_compute; reflexivity|]. split; [reflexivity|].
    split; [|reflexivity].
    exists (1 # 100)%Q, []. split; reflexivity.
  - destruct (amain_exit_status Z 10 230 1 2 Z below (at_least 9) one_rover None eq_refl)
      as (_ & _ & _ & _ & Hbelow & _).
    apply (Hbelow 9 "/dev/ttyUSB0"%string
             (Serial Z None None (Protocol Z [] [Arrival Z (1 # 100) (Decoded Z 40 7)]) [])
             (1 # 100)%Q 7 []); reflexivity.
  - destruct (amain_exit_status Z 10 230 1 2 Z below (at_least 5) no_rover None eq_refl)
      as (_ & _ & Hnone & _).
    apply Hnone; reflexivity.
Defined.

(** ** More concrete runs *)

Lemma commands_need_device_witness :
  get_data Z 10 14 (Task (Rover_init Z) None) =
    (Raise AttributeError, Task (Rover_init Z) None).
Proof.
  destruct (commands_need_device Z exact 0 10 20 250 (Rover_init Z) None 10 14 (1 # 2)
              14 [14] eq_refl) as (_ & _ & _ & _ & Hget & _).
  exact Hget.
Defined.

Lemma get_data_items_set_witness :
  get_data_items Z 10 [40; 14; 14; 28] (Task (moving_rover three_replies) None) =
  get_data_items Z 10 [14; 28; 40] (Task (moving_rover three_replies) None).
Proof.
  apply (get_data_items_set Z 10 [40; 14; 14; 28] [14; 28; 40]).
  intros i. rewrite !elem_of_cons, !elem_of_nil. lia.
Defined.

Definition late_reply : list (arrival Z) := [Arrival Z (3 # 2) (Decoded Z 14 7)].

Lemma late_reply_answers_next_request_witness :
  let first := get_data Z 10 14 (Task (moving_rover late_reply) None) in
  first.1 = Raise TooSlowError /\
  (get_data Z 10 14 first.2).1 = Return 7 /\
  (get_data Z 10 28 first.2).1 = Raise OpenRoverException.
Proof.
  destruct (late_reply_answers_next_request Z 10 (moving_rover late_reply)
              (Protocol Z [] late_reply) None 14 28 (3 # 2) 7 [] eq_refl
              (moving_rover_ok late_reply) eq_refl)
    as (Hfirst & _ & Hsame & Hother & _).
  - unfold Qle; simpl; lia.
  - reflexivity.
  - cbv zeta. split; [exact Hfirst|]. split; [exact Hsame|]. apply Hother. lia.
Defined.

Lemma heartbeat_after_set_motor_speeds_witness :
  send_speed Z 0 (set_motor_speeds Z (1 # 4) 0 (-1) (Task (moving_rover []) None)).2 =
    (Return tt,
     Task (MkRover Z (1 # 4) 0 (-1) (Some (Protocol Z [Frame (1 # 4) 0 (-1) 0 0] [])))
          None).
Proof.
  destruct (heartbeat_after_set_motor_speeds Z 0 (moving_rover []) (Protocol Z [] []) None
              (1 # 4) 0 (-1) eq_refl) as [Hnew _].
  apply Hnew. unfold Qle; simpl; lia.
Defined.

Definition no_action : Namespace Z := Args Z None (Some EmptyString) None (Some []).

Lemma amain_without_action_witness :
  amain Z 10 230 1 2 Z below no_action (Task one_rover None) =
    (Exit 2, Task one_rover None).
Proof.
  destruct (amain_without_action Z 10 230 1 2 Z below no_action (Task one_rover None))
    as [Hrun _]; [right; reflexivity | reflexivity | right; reflexivity |].
  exact Hrun.
Defined.

(** A host with two rovers, a firmware file, and a bootloader that works,
    and one whose bootloader fails. *)
Definition two_rovers (code : Z) : Host Z :=
  MkHost Z ["/dev/ttyUSB0"%string; "/dev/ttyUSB1"%string] (fun _ => true)
    (<["/dev/ttyUSB0"%string :=
         healthy Z [] [Arrival Z (1 # 100) (Decoded Z 40 7)] []]>
       {[ "/dev/ttyUSB1"%string :=
            healthy Z [] [Arrival Z (1 # 100) (Decoded Z 40 3)] [] ]})
    (fun _ _ => code).

Definition everything (m : Z) : Namespace Z :=
  Args Z None (Some "fw.hex"%string) (Some m) (Some [(3, 200); (4, 10)]).

Lemma amain_touches_one_device_witness :
  serial Z (self (amain Z 10 230 1 2 Z below (everything 5) (Task (two_rovers 0) None)).2)
    !! "/dev/ttyUSB1"%string =
  Some (healthy Z [] [Arrival Z (1 # 100) (Decoded Z 40 3)] []).
Proof.
  destruct (amain_touches_one_device Z 10 230 1 2 Z below (everything 5) (two_rovers 0)
              None "/dev/ttyUSB1"%string) as [Hother _].
  - cbn. congruence.
  - rewrite Hother. reflexivity.
Defined.


Lemma amain_stops_after_bootloader_witness :
  exists h',
    amain Z 10 230 1 2 Z below (everything 5) (Task (two_rovers 1) None) =
      (Raise CalledProcessError, Task h' None) /\
    serial Z h' !! "/dev/ttyUSB0"%string =
      Some (healthy Z [Frame 0 0 0 230 0] [Arrival Z (1 # 100) (Decoded Z 40 7)] []).
Proof.
  destruct (amain_stops_after_bootloader Z 10 230 1 2 Z below (everything 5)
              (two_rovers 1) None "/dev/ttyUSB0"%string "fw.hex"%string
              [] [Arrival Z (1 # 100) (Decoded Z 40 7)] [])
    as (h' & Hrun & _ & Hdev).
  - reflexivity.
  - reflexivity.
  - reflexivity.
  - discriminate.
  - reflexivity.
  - cbn. lia.
  - exists h'. split; [exact Hrun | exact Hdev].
Defined.

Lemma amain_stops_after_version_witness :
  exists h',
    amain Z 10 230 1 2 Z below (everything 9) (Task (two_rovers 0) None) =
      (Exit 1, Task h' None) /\
    serial Z h' !! "/dev/ttyUSB0"%string =
      Some (healthy Z [Frame 0 0 0 230 0; Frame 0 0 0 10 40] []
              ["f701004041437f"%string]).
Proof.
  destruct (amain_stops_after_version Z 10 230 1 2 Z below (everything 9) (two_rovers 0)
              None "/dev/ttyUSB0"%string [] [] 9 (1 # 100)%Q 40 7 [])
    as (h' & Hrun & Hdev).
  - reflexivity.
  - reflexivity.
  - intros f Hf. split; reflexivity.
  - reflexivity.
  - reflexivity.
  - right. reflexivity.
  - exists h'. split; [exact Hrun | exact Hdev].
Defined.


Definition second_reply_late : list (arrival Z) :=
  [Arrival Z (1 # 10) (Decoded Z 14 7); Arrival Z (3 # 2) (Decoded Z 28 8)].

Lemma get_data_items_late_reply_witness :
  let run := get_data_items Z 10 [40; 14; 14; 28]
               (Task (moving_rover second_reply_late) None) in
  run.1 = Raise TooSlowError /\
  pending Z (self run.2) = [Arrival Z (1 # 2) (Decoded Z 28 8)].
Proof.
  cbv zeta.
  rewrite (get_data_items_late_reply Z 10 (moving_rover second_reply_late)
             (Protocol Z [] second_reply_late) None [40; 14; 14; 28]
             [Arrival Z (1 # 10) (Decoded Z 14 7)] (3 # 2) (Decoded Z 28 8) []
             eq_refl (moving_rover_ok second_reply_late) eq_refl).
  - split; reflexivity.
  - replace (sorted_set [40; 14; 14; 28]) with [14; 28; 40] by (vm_compute; reflexivity).
    repeat (constructor; [split; [reflexivity | eexists; reflexivity]|]).
    constructor.
  - replace (sorted_set [40; 14; 14; 28]) with [14; 28; 40] by (vm_compute; reflexivity).
    simpl. lia.
  - unfold Qle; simpl; lia.
Defined.

Lemma get_data_items_as_single_reads_witness :
  get_data_items Z 10 [40; 14; 14; 28] (Task (moving_rover three_replies) None) =
  get_data_each Z 10 [14; 28; 40] (Task (moving_rover three_replies) None).
Proof.
  destruct (get_data_items_as_single_reads Z 10 (moving_rover three_replies)
              (Protocol Z [] three_replies) None [40; 14; 14; 28] three_replies []
              eq_refl (moving_rover_ok three_replies) eq_refl) as [Heq _].
  - replace (sorted_set [40; 14; 14; 28]) with [14; 28; 40] by (vm_compute; reflexivity).
    repeat (constructor; [split; [reflexivity | eexists; reflexivity]|]).
    constructor.
  - rewrite Heq.
    replace (sorted_set [40; 14; 14; 28]) with [14; 28; 40] by (vm_compute; reflexivity).
    reflexivity.
Defined.
